(** * Workflow-based mail filter (n8n-mta/workflow-filter.py)

    A shallow embedding of the workflow evaluator: Python values, the
    condition evaluator, the three node classes, the workflow engine with
    its depth-first traversal, and the e-mail processing boundary.

    Conventions of the embedding:
    - Python values that travel through records and configuration objects
      are [pyval]; a [dict] with string keys is a [gmap string pyval];
    - a Python [float] is an IEEE binary64 number, [PrimFloat.float];
    - strings are Rocq strings (sequences of 8-bit characters); [str.lower]
      is modelled on the ASCII range;
    - code that may raise returns [exc A]; [try/except Exception] is a match
      on that result;
    - functions of the Python standard library whose semantics lies outside
      the program (float parsing, [re.search], [repr], the [email] package)
      are operations of the classes [PyBuiltins] and [EmailLib]. *)

From Stdlib Require Import PrimFloat Uint63 Ascii String.
From stdpp Require Import gmap strings list fin_maps pretty.

Set Default Proof Using "Type".
#[local] Set Warnings "-register-all,-clear-no-such-hyp".
Open Scope string_scope.

(** ** Python values *)

Inductive pyval : Type :=
  | VNone
  | VBool (b : bool)
  | VInt (n : Z)
  | VFloat (f : PrimFloat.float)
  | VStr (s : string)
  | VList (l : list pyval)
  | VDict (d : gmap string pyval).

(** [bool(v)]: the truth value Python gives to [v]. *)
Definition truthy (v : pyval) : bool :=
  match v with
  | VNone => false
  | VBool b => b
  | VInt n => negb (n =? 0)%Z
  | VFloat f => negb (PrimFloat.eqb f PrimFloat.zero)
  | VStr s => negb (String.eqb s "")
  | VList l => match l with [] => false | _ => true end
  | VDict d => match map_to_list d with [] => false | _ => true end
  end.

(** [v == s] for a string literal [s]. *)
Definition py_eq_str (v : pyval) (s : string) : bool :=
  match v with
  | VStr t => String.eqb t s
  | _ => false
  end.

(** [d.get(k)] and [d.get(k, dflt)] on a dict with string keys. *)
Definition dict_get (d : gmap string pyval) (k : string) : pyval :=
  default VNone (d !! k).

Definition dict_get_or (d : gmap string pyval) (k : string) (dflt : pyval) : pyval :=
  default dflt (d !! k).

(** ** Exceptions *)

Record pyexn := Exn { exn_class : string; exn_msg : string }.

Inductive exc (A : Type) : Type :=
  | Ok (a : A)
  | Raise (e : pyexn).
Arguments Ok {A} a.
Arguments Raise {A} e.

#[export] Instance exc_ret : MRet exc := λ A a, Ok a.
#[export] Instance exc_bind : MBind exc := λ A B f m,
  match m with
  | Ok a => f a
  | Raise e => Raise e
  end.

Definition TypeError (m : string) : pyexn := Exn "TypeError" m.
Definition AttributeError (m : string) : pyexn := Exn "AttributeError" m.
Definition ValueError (m : string) : pyexn := Exn "ValueError" m.
Definition OverflowError (m : string) : pyexn := Exn "OverflowError" m.
Definition ReError (m : string) : pyexn := Exn "error" m.

(** The name Python prints for the type of a value. *)
Definition type_name (v : pyval) : string :=
  match v with
  | VNone => "NoneType"
  | VBool _ => "bool"
  | VInt _ => "int"
  | VFloat _ => "float"
  | VStr _ => "str"
  | VList _ => "list"
  | VDict _ => "dict"
  end.

Definition no_attribute (v : pyval) (attr : string) : pyexn :=
  AttributeError ("'" ++ type_name v ++ "' object has no attribute '" ++ attr ++ "'").

(** ** Strings *)

Definition ascii_lower (c : ascii) : ascii :=
  let n := nat_of_ascii c in
  if (65 <=? n)%nat && (n <=? 90)%nat then ascii_of_nat (n + 32) else c.

Fixpoint str_lower (s : string) : string :=
  match s with
  | EmptyString => EmptyString
  | String c s' => String (ascii_lower c) (str_lower s')
  end.

(** [needle in hay] *)
Fixpoint str_contains (needle hay : string) : bool :=
  String.prefix needle hay ||
  match hay with
  | EmptyString => false
  | String _ hay' => str_contains needle hay'
  end.

(** [s.startswith(p)] *)
Definition str_startswith (s p : string) : bool := String.prefix p s.

(** [s.endswith(p)] *)
Definition str_endswith (s p : string) : bool :=
  (String.length p <=? String.length s)%nat &&
  String.eqb (String.substring (String.length s - String.length p) (String.length p) s) p.

(** ** Builtins of the Python runtime used by the evaluator *)

Class PyBuiltins := {
  (** [float(s)] on a string; [None] when Python raises [ValueError]. *)
  float_of_str : string → option PrimFloat.float;
  (** [float(n)] on an integer; [None] when Python raises [OverflowError]. *)
  float_of_int : Z → option PrimFloat.float;
  (** [re.search(pattern, s, re.IGNORECASE)]: [Some b] tells whether a match
      object was returned; [None] when the pattern does not compile. *)
  re_search_ignorecase : string → string → option bool;
  (** [str(v)] for a float, a list or a dict. *)
  py_repr : pyval → string;
}.

Section Evaluator.
Context `{PyBuiltins}.

(** [str(v)] *)
Definition py_str (v : pyval) : string :=
  match v with
  | VStr s => s
  | VNone => "None"
  | VBool true => "True"
  | VBool false => "False"
  | VInt n => pretty n
  | _ => py_repr v
  end.

(** [float(v)] *)
Definition py_float (v : pyval) : exc PrimFloat.float :=
  match v with
  | VStr s =>
      match float_of_str s with
      | Some f => Ok f
      | None => Raise (ValueError ("could not convert string to float: " ++ s))
      end
  | VInt n =>
      match float_of_int n with
      | Some f => Ok f
      | None => Raise (OverflowError "int too large to convert to float")
      end
  | VFloat f => Ok f
  | VBool b => Ok (if b then PrimFloat.one else PrimFloat.zero)
  | _ => Raise (TypeError "float() argument must be a string or a real number")
  end.

(** [v.lower()] *)
Definition py_lower (v : pyval) : exc string :=
  match v with
  | VStr s => Ok (str_lower s)
  | _ => Raise (no_attribute v "lower")
  end.

(** [re.search(value, field_value, re.IGNORECASE)] *)
Definition py_re_search (value : pyval) (field_value : string) : exc bool :=
  match value with
  | VStr p =>
      match re_search_ignorecase p field_value with
      | Some b => Ok b
      | None => Raise (ReError "invalid pattern")
      end
  | _ => Raise (TypeError "first argument must be string or compiled pattern")
  end.

(** ** FilterNode._evaluate_condition *)

Definition known_operators : list string :=
  ["equals"; "contains"; "starts_with"; "ends_with"; "regex";
   "not_equals"; "not_contains"; "greater_than"; "less_than"].

(** The body of the [try] block. *)
Definition _evaluate_condition_try (field_value : string) (operator value : pyval)
  : exc bool :=
  if py_eq_str operator "equals" then
    v ← py_lower value; mret (String.eqb (str_lower field_value) v)
  else if py_eq_str operator "contains" then
    v ← py_lower value; mret (str_contains v (str_lower field_value))
  else if py_eq_str operator "starts_with" then
    v ← py_lower value; mret (str_startswith (str_lower field_value) v)
  else if py_eq_str operator "ends_with" then
    v ← py_lower value; mret (str_endswith (str_lower field_value) v)
  else if py_eq_str operator "regex" then
    py_re_search value field_value
  else if py_eq_str operator "not_equals" then
    v ← py_lower value; mret (negb (String.eqb (str_lower field_value) v))
  else if py_eq_str operator "not_contains" then
    v ← py_lower value; mret (negb (str_contains v (str_lower field_value)))
  else if py_eq_str operator "greater_than" then
    a ← py_float (VStr field_value); b ← py_float value; mret (PrimFloat.ltb b a)
  else if py_eq_str operator "less_than" then
    a ← py_float (VStr field_value); b ← py_float value; mret (PrimFloat.ltb a b)
  else
    mret false.

(** [try: ... except Exception: return False] *)
Definition _evaluate_condition (field_value : string) (operator value : pyval) : bool :=
  match _evaluate_condition_try field_value operator value with
  | Ok b => b
  | Raise _ => false
  end.

(** ** Workflow nodes *)

Record connection := Connection {
  target : string;
  condition : option string;
}.

Inductive node_class := TriggerNode | FilterNode | ActionNode.

(** A node object: [node_class] is the Python class of the object, [config]
    the node's configuration object. *)
Record WorkflowNode := Node {
  class_of : node_class;
  node_id : string;
  config : gmap string pyval;
  connections : list connection;
}.

(** [node.node_type], the tag each subclass passes to the base constructor. *)
Definition node_type (n : WorkflowNode) : string :=
  match class_of n with
  | TriggerNode => "trigger"
  | FilterNode => "filter"
  | ActionNode => "action"
  end.

(** [WorkflowNode.add_connection] *)
Definition add_connection (n : WorkflowNode) (target_node : string)
    (cond : option string) : WorkflowNode :=
  Node (class_of n) (node_id n) (config n)
       (connections n ++ [Connection target_node cond])%list.

(** *** TriggerNode.execute *)
Definition TriggerNode_execute (data : gmap string pyval) : exc (gmap string pyval) :=
  Ok data.

(** *** FilterNode *)

(** [self.conditions = config.get('conditions', [])] *)
Definition FilterNode_conditions (cfg : gmap string pyval) : pyval :=
  dict_get_or cfg "conditions" (VList []).

(** [for x in v]: the items a [for] loop draws from [v]. The keys of a dict
    are listed in the order of the map, not in insertion order. *)
Definition py_iter (v : pyval) : exc (list pyval) :=
  match v with
  | VList l => Ok l
  | VStr s => Ok ((λ c, VStr (String c EmptyString)) <$> list_ascii_of_string s)
  | VDict d => Ok (VStr <$> (map_to_list d).*1)
  | _ => Raise (TypeError ("'" ++ type_name v ++ "' object is not iterable"))
  end.

(** [condition.get(k)] *)
Definition py_get (c : pyval) (k : string) : exc pyval :=
  match c with
  | VDict d => Ok (dict_get d k)
  | _ => Raise (no_attribute c "get")
  end.

Definition field_map : gmap string string :=
  list_to_map [("sender", "from"); ("recipient", "to"); ("subject", "subject");
               ("body", "body"); ("size", "size")].

(** [FilterNode._get_field_value]. A list or a dict cannot be looked up in
    [field_map]; a hashable value that is not a string is no key of
    [field_map] and no key of the record, whose keys are strings. *)
Definition _get_field_value (data : gmap string pyval) (field : pyval) : exc string :=
  match field with
  | VList _ | VDict _ =>
      Raise (TypeError ("unhashable type: '" ++ type_name field ++ "'"))
  | VStr f =>
      let actual_field := default f (field_map !! f) in
      Ok (py_str (dict_get_or data actual_field (VStr "")))
  | _ => Ok (py_str (VStr ""))
  end.

(** Values that can be keys of a dict. *)
Definition is_hashable (v : pyval) : bool :=
  match v with
  | VList _ | VDict _ => false
  | _ => true
  end.

(** A condition the loop of [FilterNode.execute] can process: an object
    whose [field] entry, if any, is hashable. *)
Definition condition_ok (c : pyval) : bool :=
  match c with
  | VDict d => is_hashable (dict_get d "field")
  | _ => false
  end.

(** One element of [result['filter_results']]. *)
Record filter_result := FilterResult {
  fr_field : pyval;
  fr_operator : pyval;
  fr_value : pyval;
  fr_result : bool;
}.

Definition filter_result_dict (r : filter_result) : pyval :=
  VDict (<["field" := fr_field r]> (<["operator" := fr_operator r]>
        (<["value" := fr_value r]> (<["result" := VBool (fr_result r)]> ∅)))).

(** One turn of the loop over the conditions. *)
Definition evaluate_one (data : gmap string pyval) (cond : pyval) : exc filter_result :=
  field ← py_get cond "field";
  operator ← py_get cond "operator";
  value ← py_get cond "value";
  field_value ← _get_field_value data field;
  mret (FilterResult field operator value
          (_evaluate_condition field_value operator value)).

(** The loop: the results are appended in the order of the conditions. *)
Fixpoint evaluate_all (data : gmap string pyval) (conds : list pyval)
  : exc (list filter_result) :=
  match conds with
  | [] => Ok []
  | c :: cs =>
      r ← evaluate_one data c;
      rs ← evaluate_all data cs;
      mret (r :: rs)
  end.

(** [FilterNode.execute] *)
Definition FilterNode_execute (cfg : gmap string pyval) (data : gmap string pyval)
  : exc (gmap string pyval) :=
  conds ← py_iter (FilterNode_conditions cfg);
  results ← evaluate_all data conds;
  let result := <["filter_results" := VList (filter_result_dict <$> results)]> data in
  let logic := dict_get_or cfg "logic" (VStr "AND") in
  if py_eq_str logic "AND" then
    mret (<["filter_passed" := VBool (forallb fr_result results)]> result)
  else
    mret (<["filter_passed" := VBool (existsb fr_result results)]> result).

(** *** ActionNode.execute *)
Definition ActionNode_execute (cfg : gmap string pyval) (data : gmap string pyval)
  : exc (gmap string pyval) :=
  let action_type := dict_get cfg "action_type" in
  if py_eq_str action_type "reject" then
    Ok (<["reject_reason" := dict_get_or cfg "reason" (VStr "Message rejected by filter")]>
        (<["action" := VStr "reject"]> data))
  else if py_eq_str action_type "quarantine" then
    Ok (<["quarantine_folder" := dict_get_or cfg "folder" (VStr "/var/mail/quarantine")]>
        (<["action" := VStr "quarantine"]> data))
  else if py_eq_str action_type "forward" then
    Ok (<["forward_to" := dict_get cfg "forward_to"]>
        (<["action" := VStr "forward"]> data))
  else if py_eq_str action_type "modify_headers" then
    Ok (<["header_modifications" := dict_get_or cfg "headers" (VDict ∅)]>
        (<["action" := VStr "modify_headers"]> data))
  else if py_eq_str action_type "accept" then
    Ok (<["action" := VStr "accept"]> data)
  else if py_eq_str action_type "tag" then
    Ok (<["tags" := dict_get_or cfg "tags" (VList [])]>
        (<["action" := VStr "tag"]> data))
  else
    Ok data.

Definition recognised_actions : list string :=
  ["reject"; "quarantine"; "forward"; "modify_headers"; "accept"; "tag"].

(** [node.execute(data)], dispatched on the class of the node. *)
Definition node_execute (n : WorkflowNode) (data : gmap string pyval)
  : exc (gmap string pyval) :=
  match class_of n with
  | TriggerNode => TriggerNode_execute data
  | FilterNode => FilterNode_execute (config n) data
  | ActionNode => ActionNode_execute (config n) data
  end.

End Evaluator.

(** ** The workflow engine *)

(** Configuration document. [nd_id] and [nd_type] are the descriptor's
    required [id] and [type] entries; [nd_config] is the descriptor object
    itself, which the node keeps as its [config]. *)
Record node_descr := NodeDescr {
  nd_id : string;
  nd_type : string;
  nd_config : gmap string pyval;
}.

Record conn_descr := ConnDescr {
  cd_source : string;
  cd_target : string;
  cd_condition : option string;
}.

Record workflow_config := WorkflowConfig {
  wc_nodes : list node_descr;
  wc_connections : list conn_descr;
}.

(** [self.nodes]: a Python dict, kept as an association list in insertion
    order, since [execute] walks [self.nodes.values()]. *)
Definition node_table := list (string * WorkflowNode).

(** [nodes[k]] when [k in nodes] *)
Fixpoint nodes_lookup (nodes : node_table) (k : string) : option WorkflowNode :=
  match nodes with
  | [] => None
  | (k', n) :: rest => if String.eqb k' k then Some n else nodes_lookup rest k
  end.

(** [nodes[k] = n]: an existing key keeps its place, a new key goes last. *)
Fixpoint nodes_store (nodes : node_table) (k : string) (n : WorkflowNode) : node_table :=
  match nodes with
  | [] => [(k, n)]
  | (k', n') :: rest =>
      if String.eqb k' k then (k, n) :: rest else (k', n') :: nodes_store rest k n
  end.

(** The class chosen for a descriptor; [None] for an unknown type. *)
Definition class_of_type (ty : string) : option node_class :=
  if String.eqb ty "trigger" then Some TriggerNode
  else if String.eqb ty "filter" then Some FilterNode
  else if String.eqb ty "action" then Some ActionNode
  else None.

(** First loop of [_build_workflow]. *)
Fixpoint build_nodes (descrs : list node_descr) (nodes : node_table) : node_table :=
  match descrs with
  | [] => nodes
  | d :: ds =>
      match class_of_type (nd_type d) with
      | Some c => build_nodes ds (nodes_store nodes (nd_id d) (Node c (nd_id d) (nd_config d) []))
      | None => build_nodes ds nodes
      end
  end.

(** Second loop of [_build_workflow]. *)
Fixpoint build_connections (conns : list conn_descr) (nodes : node_table) : node_table :=
  match conns with
  | [] => nodes
  | c :: cs =>
      match nodes_lookup nodes (cd_source c) with
      | Some n =>
          build_connections cs
            (nodes_store nodes (cd_source c) (add_connection n (cd_target c) (cd_condition c)))
      | None => build_connections cs nodes
      end
  end.

(** [WorkflowEngine.__init__] and [_build_workflow] *)
Definition _build_workflow (cfg : workflow_config) : node_table :=
  build_connections (wc_connections cfg) (build_nodes (wc_nodes cfg) []).

(** [WorkflowEngine._should_follow_connection] *)
Definition _should_follow_connection (data : gmap string pyval) (cond : option string) : bool :=
  match cond with
  | None => true
  | Some c =>
      if negb (truthy (VStr c)) then true
      else if String.eqb c "true" && truthy (dict_get data "filter_passed") then true
      else if String.eqb c "false" && negb (truthy (dict_get data "filter_passed")) then true
      else false
  end.

(** The verdict a record carries: [data.get('filter_passed')] as a truth value. *)
Definition filter_verdict (data : gmap string pyval) : bool :=
  truthy (dict_get data "filter_passed").

(** *** Traversal

    The traversal is run with an event log: the engine's warnings and
    errors, and a mark [Executed] for each call of a node's [execute]. *)
Inductive event :=
  | Executed (id : string)
  | CircularReference (id : string)
  | TargetNotFound (id : string)
  | NoTriggerNode.

Inductive outcome (A : Type) :=
  | Returned (a : A)
  | Raised (e : pyexn)
  | OutOfFuel.
Arguments Returned {A} a.
Arguments Raised {A} e.
Arguments OutOfFuel {A}.

Definition run (A : Type) : Type := list event * outcome A.

#[export] Instance run_ret : MRet run := λ A a, ([], Returned a).
#[export] Instance run_bind : MBind run := λ A B f m,
  match m with
  | (log, Returned a) => let '(log', o) := f a in ((log ++ log')%list, o)
  | (log, Raised e) => (log, Raised e)
  | (log, OutOfFuel) => (log, OutOfFuel)
  end.

Definition tell (ev : event) : run unit := ([ev], Returned tt).

Definition lift_exc {A} (m : exc A) : run A :=
  match m with
  | Ok a => ([], Returned a)
  | Raise e => ([], Raised e)
  end.

(** A store of set objects; a reference is an index. *)
Abbreviation set_store := (list (gset string)).

(** A run that did not stop for lack of fuel. *)
Definition finished {A} (r : run A) : Prop := r.2 ≠ OutOfFuel.

(** The ids that the node objects of a table carry. *)
Definition node_ids (nodes : node_table) : gset string :=
  list_to_set (node_id <$> nodes.*2).

Section Engine.
Context `{PyBuiltins}.

(** The loop over [node.connections] of [_execute_node]; [descend] is the
    recursive call on a target node. *)
Fixpoint follow_connections (nodes : node_table)
    (descend : WorkflowNode → gmap string pyval → run (gmap string pyval))
    (conns : list connection) (result : gmap string pyval) : run (gmap string pyval) :=
  match conns with
  | [] => mret result
  | c :: cs =>
      if _should_follow_connection result (condition c) then
        match nodes_lookup nodes (target c) with
        | Some target_node =>
            result' ← descend target_node result;
            follow_connections nodes descend cs result'
        | None =>
            _ ← tell (TargetNotFound (target c));
            follow_connections nodes descend cs result
        end
      else follow_connections nodes descend cs result
  end.

(** [WorkflowEngine._execute_node]. The callee adds to the set it was
    handed; every recursive call is handed [visited.copy()], a set of its
    own, so the set is passed by value. [fuel] bounds the recursion depth. *)
Fixpoint _execute_node (fuel : nat) (nodes : node_table) (node : WorkflowNode)
    (data : gmap string pyval) (visited : gset string) : run (gmap string pyval) :=
  match fuel with
  | O => ([], OutOfFuel)
  | S fuel' =>
      if decide (node_id node ∈ visited) then
        _ ← tell (CircularReference (node_id node)); mret data
      else
        let visited := {[node_id node]} ∪ visited in
        _ ← tell (Executed (node_id node));
        result ← lift_exc (node_execute node data);
        follow_connections nodes
          (λ target_node r, _execute_node fuel' nodes target_node r visited)
          (connections node) result
  end.

(** The first node of [self.nodes.values()] whose type is [trigger]. *)
Definition find_trigger (nodes : node_table) : option WorkflowNode :=
  List.find (λ n, String.eqb (node_type n) "trigger") nodes.*2.

Definition no_trigger_record : gmap string pyval :=
  <["action" := VStr "accept"]> (<["error" := VStr "No trigger node"]> ∅).

(** [WorkflowEngine.execute], with the recursion depth bounded by [fuel]. *)
Definition execute_fuel (fuel : nat) (nodes : node_table) (email_data : gmap string pyval)
  : run (gmap string pyval) :=
  match find_trigger nodes with
  | None => _ ← tell NoTriggerNode; mret no_trigger_record
  | Some trigger_node => _execute_node fuel nodes trigger_node email_data ∅
  end.

(** [WorkflowEngine.execute]: one more level than there are nodes is enough
    (see [execute_fuel_enough]). *)
Definition execute (nodes : node_table) (email_data : gmap string pyval)
  : run (gmap string pyval) :=
  execute_fuel (S (length nodes)) nodes email_data.

(** The [action] attribute of the record a run returned. *)
Definition final_action (r : run (gmap string pyval)) : option pyval :=
  match r.2 with
  | Returned d => d !! "action"
  | _ => None
  end.

(** *** The visited sets as objects

    [_execute_node] once more, now with the sets of visited ids as mutable
    objects in a store: [visited] is a reference, [visited.add] updates the
    object in place and [visited.copy()] allocates a new object. *)
Definition set_at (st : set_store) (ref : nat) : gset string := default ∅ (st !! ref).

Fixpoint follow_connections_store (nodes : node_table)
    (descend : WorkflowNode → gmap string pyval → nat → set_store →
               set_store * run (gmap string pyval))
    (visited : nat) (conns : list connection) (result : gmap string pyval)
    (st : set_store) : set_store * run (gmap string pyval) :=
  match conns with
  | [] => (st, mret result)
  | c :: cs =>
      if _should_follow_connection result (condition c) then
        match nodes_lookup nodes (target c) with
        | Some target_node =>
            let copy := length st in
            let st := (st ++ [set_at st visited])%list in
            match descend target_node result copy st with
            | (st, (log, Returned result')) =>
                let '(st, (log', o)) :=
                  follow_connections_store nodes descend visited cs result' st in
                (st, ((log ++ log')%list, o))
            | (st, (log, Raised e)) => (st, (log, Raised e))
            | (st, (log, OutOfFuel)) => (st, (log, OutOfFuel))
            end
        | None =>
            let '(st, (log', o)) :=
              follow_connections_store nodes descend visited cs result st in
            (st, (TargetNotFound (target c) :: log', o))
        end
      else follow_connections_store nodes descend visited cs result st
  end.

Fixpoint _execute_node_store (fuel : nat) (nodes : node_table) (node : WorkflowNode)
    (data : gmap string pyval) (visited : nat) (st : set_store)
  : set_store * run (gmap string pyval) :=
  match fuel with
  | O => (st, ([], OutOfFuel))
  | S fuel' =>
      if decide (node_id node ∈ set_at st visited) then
        (st, ([CircularReference (node_id node)], Returned data))
      else
        let st := <[visited := {[node_id node]} ∪ set_at st visited]> st in
        match node_execute node data with
        | Raise e => (st, ([Executed (node_id node)], Raised e))
        | Ok result =>
            let '(st, (log, o)) :=
              follow_connections_store nodes (_execute_node_store fuel' nodes)
                visited (connections node) result st in
            (st, (Executed (node_id node) :: log, o))
        end
  end.

(** [WorkflowEngine.execute] on the store: [visited_nodes = set()] is the
    first object allocated. *)
Definition execute_store (nodes : node_table) (email_data : gmap string pyval)
  : set_store * run (gmap string pyval) :=
  match find_trigger nodes with
  | None => ([], ([NoTriggerNode], Returned no_trigger_record))
  | Some trigger_node =>
      _execute_node_store (S (length nodes)) nodes trigger_node email_data 0 [∅]
  end.

End Engine.

(** ** EmailProcessor *)

(** The configuration written by [_create_default_config]. *)
Definition spam_subject_condition : pyval :=
  VDict (list_to_map [("field", VStr "subject"); ("operator", VStr "contains");
                      ("value", VStr "[SPAM]")]).

Definition spam_sender_condition : pyval :=
  VDict (list_to_map [("field", VStr "sender"); ("operator", VStr "contains");
                      ("value", VStr "noreply@spam")]).

Definition trigger1_config : gmap string pyval :=
  list_to_map [("id", VStr "trigger1"); ("type", VStr "trigger");
               ("name", VStr "Email Received")].

Definition filter1_config : gmap string pyval :=
  list_to_map [("id", VStr "filter1"); ("type", VStr "filter");
               ("name", VStr "Spam Filter"); ("logic", VStr "OR");
               ("conditions", VList [spam_subject_condition; spam_sender_condition])].

Definition action1_config : gmap string pyval :=
  list_to_map [("id", VStr "action1"); ("type", VStr "action");
               ("name", VStr "Reject Spam"); ("action_type", VStr "reject");
               ("reason", VStr "Message identified as spam")].

Definition action2_config : gmap string pyval :=
  list_to_map [("id", VStr "action2"); ("type", VStr "action");
               ("name", VStr "Accept Email"); ("action_type", VStr "accept")].

Definition default_config : workflow_config :=
  WorkflowConfig
    [ NodeDescr "trigger1" "trigger" trigger1_config;
      NodeDescr "filter1" "filter" filter1_config;
      NodeDescr "action1" "action" action1_config;
      NodeDescr "action2" "action" action2_config ]
    [ ConnDescr "trigger1" "filter1" None;
      ConnDescr "filter1" "action1" (Some "true");
      ConnDescr "filter1" "action2" (Some "false") ].

(** What the default filter decides on a record whose subject is [s]:
    the subject contains [[SPAM]] or the sender contains [noreply@spam],
    letter case aside. *)
Definition default_verdict `{PyBuiltins} (s : string) (data : gmap string pyval) : bool :=
  str_contains "[spam]" (str_lower s) ||
  str_contains "noreply@spam" (str_lower (py_str (dict_get_or data "from" (VStr "")))).

(** [WorkflowEngine(default_config)] *)
Definition default_engine : node_table := _build_workflow default_config.

(** The operations of Python's [email] package and of the clock that
    [process_email] calls, each of which may raise. A payload is a byte
    string, written as a [string]. *)
Class EmailLib := {
  message : Type;
  (** [email.message_from_string(s)] *)
  message_from_string : string → exc message;
  (** [msg.get(name, '')] *)
  msg_get : message → string → exc pyval;
  (** [msg.is_multipart()] *)
  msg_is_multipart : message → exc bool;
  (** [msg.walk()] *)
  msg_walk : message → exc (list message);
  (** [part.get_content_type()] *)
  msg_get_content_type : message → exc string;
  (** [part.get_payload(decode=True)]: bytes, or [None] *)
  msg_get_payload_decoded : message → exc (option string);
  (** [b.decode('utf-8', errors='ignore')] *)
  bytes_decode_ignore : string → string;
  (** [msg.items()] *)
  msg_items : message → exc (list (string * pyval));
  (** [datetime.now().isoformat()] *)
  now_isoformat : string;
}.

Section Processor.
Context `{PyBuiltins} `{EmailLib}.

(** [part.get_payload(decode=True).decode('utf-8', errors='ignore')] *)
Definition decoded_payload (part : message) : exc string :=
  payload ← msg_get_payload_decoded part;
  match payload with
  | Some b => Ok (bytes_decode_ignore b)
  | None => Raise (no_attribute VNone "decode")
  end.

(** The loop over [msg.walk()] of [_extract_body]. *)
Fixpoint extract_parts (parts : list message) (body : string) : exc string :=
  match parts with
  | [] => Ok body
  | part :: rest =>
      ct ← msg_get_content_type part;
      if String.eqb ct "text/plain" then
        text ← decoded_payload part;
        extract_parts rest (body ++ text)
      else extract_parts rest body
  end.

(** [EmailProcessor._extract_body] *)
Definition _extract_body (msg : message) : exc string :=
  multipart ← msg_is_multipart msg;
  if multipart : bool then
    parts ← msg_walk msg;
    extract_parts parts ""
  else
    ct ← msg_get_content_type msg;
    if String.eqb ct "text/plain" then decoded_payload msg else Ok "".

(** The parsing part of [process_email]: the record [email_data]. *)
Definition extract_email_data (email_content : string) : exc (gmap string pyval) :=
  msg ← message_from_string email_content;
  from ← msg_get msg "From";
  to ← msg_get msg "To";
  subject ← msg_get msg "Subject";
  date ← msg_get msg "Date";
  message_id ← msg_get msg "Message-ID";
  body ← _extract_body msg;
  headers ← msg_items msg;
  mret (list_to_map
          [("from", from); ("to", to); ("subject", subject); ("date", date);
           ("message_id", message_id); ("body", VStr body);
           ("size", VInt (Z.of_nat (String.length email_content)));
           ("headers", VDict (list_to_map (reverse headers)));
           ("timestamp", VStr now_isoformat)]).

(** The keys of [email_data]. *)
Definition extracted_fields : list string :=
  ["from"; "to"; "subject"; "date"; "message_id"; "body"; "size"; "headers"; "timestamp"].

Definition no_engine_record : gmap string pyval :=
  <["action" := VStr "accept"]> (<["error" := VStr "No workflow engine"]> ∅).

(** The body of the [try] block of [process_email];
    [engine] is [self.workflow_engine]. *)
Definition process_email_try (engine : option node_table) (email_content : string)
  : run (gmap string pyval) :=
  email_data ← lift_exc (extract_email_data email_content);
  match engine with
  | Some nodes => execute nodes email_data
  | None => mret no_engine_record
  end.

(** The record built by the [except] clause. *)
Definition error_record (e : pyexn) : gmap string pyval :=
  <["action" := VStr "accept"]> (<["error" := VStr (exn_msg e)]> ∅).

(** [EmailProcessor.process_email] *)
Definition process_email (engine : option node_table) (email_content : string)
  : run (gmap string pyval) :=
  match process_email_try engine email_content with
  | (log, Raised e) => (log, Returned (error_record e))
  | r => r
  end.

End Processor.

(** ** A sample runtime

    A small instance of the two interfaces, on which the definitions can be
    run. It answers like Python where it answers at all: [float] of a string
    of at most 15 decimal digits or of an integer below [2^53], and a search
    for a pattern made of letters, digits and spaces only; everything else
    is rejected. *)

Definition is_digit (c : ascii) : bool :=
  let n := nat_of_ascii c in (48 <=? n)%nat && (n <=? 57)%nat.

Definition is_plain (c : ascii) : bool :=
  let n := nat_of_ascii (ascii_lower c) in
  is_digit c || ((97 <=? n)%nat && (n <=? 122)%nat) || (n =? 32)%nat.

Fixpoint digits_value (s : string) (acc : Z) : option Z :=
  match s with
  | EmptyString => Some acc
  | String c s' =>
      if is_digit c then digits_value s' (10 * acc + Z.of_nat (nat_of_ascii c - 48))%Z
      else None
  end.

Definition float_of_small_int (n : Z) : option PrimFloat.float :=
  if ((0 <=? n) && (n <? 2 ^ 53))%Z then Some (PrimFloat.of_uint63 (Uint63.of_Z n))
  else None.

Definition sample_float_of_str (s : string) : option PrimFloat.float :=
  if (0 <? String.length s)%nat && (String.length s <=? 15)%nat then
    n ← digits_value s 0; float_of_small_int n
  else None.

Definition sample_re_search (pattern s : string) : option bool :=
  if forallb is_plain (list_ascii_of_string pattern) then
    Some (str_contains (str_lower pattern) (str_lower s))
  else None.

Definition sample_builtins : PyBuiltins :=
  {| float_of_str := sample_float_of_str;
     float_of_int := float_of_small_int;
     re_search_ignorecase := sample_re_search;
     py_repr := λ _, "" |}.

(** A library run in which the parser raises [e] on every message. *)
Definition failing_email_lib (e : pyexn) : EmailLib :=
  {| message := unit;
     message_from_string := λ _, Raise e;
     msg_get := λ _ _, Ok (VStr "");
     msg_is_multipart := λ _, Ok false;
     msg_walk := λ _, Ok [];
     msg_get_content_type := λ _, Ok "text/plain";
     msg_get_payload_decoded := λ _, Ok (Some "");
     bytes_decode_ignore := λ b, b;
     msg_items := λ _, Ok [];
     now_isoformat := "" |}.

(** A library run on messages that have no header block: the whole text is
    the body of a single [text/plain] part. *)
Definition headerless_email_lib : EmailLib :=
  {| message := string;
     message_from_string := λ s, Ok s;
     msg_get := λ _ _, Ok (VStr "");
     msg_is_multipart := λ _, Ok false;
     msg_walk := λ m, Ok [m];
     msg_get_content_type := λ _, Ok "text/plain";
     msg_get_payload_decoded := λ m, Ok (Some m);
     bytes_decode_ignore := λ b, b;
     msg_items := λ _, Ok [];
     now_isoformat := "2024-01-01T00:00:00" |}.

(** A workflow with a cycle: [check] and [mark] point at each other. *)
Definition cyclic_config : workflow_config :=
  WorkflowConfig
    [ NodeDescr "start" "trigger" (list_to_map [("id", VStr "start"); ("type", VStr "trigger")]);
      NodeDescr "check" "filter"
        (list_to_map [("id", VStr "check"); ("type", VStr "filter");
                      ("conditions", VList [VDict (list_to_map
                          [("field", VStr "subject"); ("operator", VStr "contains");
                           ("value", VStr "hello")])])]);
      NodeDescr "mark" "action"
        (list_to_map [("id", VStr "mark"); ("type", VStr "action");
                      ("action_type", VStr "tag"); ("tags", VList [VStr "seen"])]) ]
    [ ConnDescr "start" "check" None;
      ConnDescr "check" "mark" (Some "true");
      ConnDescr "mark" "check" None ].

(** A diamond: [left] and [right] both lead to [join]. *)
Definition diamond_config : workflow_config :=
  WorkflowConfig
    [ NodeDescr "top" "trigger" (list_to_map [("id", VStr "top"); ("type", VStr "trigger")]);
      NodeDescr "left" "action"
        (list_to_map [("id", VStr "left"); ("type", VStr "action");
                      ("action_type", VStr "tag"); ("tags", VList [VStr "l"])]);
      NodeDescr "right" "action"
        (list_to_map [("id", VStr "right"); ("type", VStr "action");
                      ("action_type", VStr "forward"); ("forward_to", VStr "x@y.z")]);
      NodeDescr "join" "action"
        (list_to_map [("id", VStr "join"); ("type", VStr "action");
                      ("action_type", VStr "accept")]) ]
    [ ConnDescr "top" "left" None;
      ConnDescr "top" "right" None;
      ConnDescr "left" "join" None;
      ConnDescr "right" "join" None ].

(** A workflow without a trigger. *)
Definition triggerless_config : workflow_config :=
  WorkflowConfig
    [ NodeDescr "only" "action"
        (list_to_map [("id", VStr "only"); ("type", VStr "action");
                      ("action_type", VStr "reject")]) ]
    [ ConnDescr "only" "only" None ].

(** Records of the examples. *)
Definition spam_record : gmap string pyval :=
  list_to_map [("from", VStr ""); ("to", VStr ""); ("subject", VStr "[SPAM] buy now");
               ("date", VStr ""); ("message_id", VStr ""); ("body", VStr "")].

Definition hello_record : gmap string pyval :=
  list_to_map [("from", VStr "a@b.com"); ("subject", VStr "hello")].


(** ** Reading a built graph back from its configuration *)

(** The connections declared for source [k], in the order of the document. *)
Definition declared_connections (conns : list conn_descr) (k : string) : list connection :=
  (λ c, Connection (cd_target c) (cd_condition c))
    <$> List.filter (λ c, String.eqb (cd_source c) k) conns.

(** The last descriptor of id [k] whose type names a node class. *)
Fixpoint last_known_descr (descrs : list node_descr) (k : string) : option node_descr :=
  match descrs with
  | [] => None
  | d :: ds =>
      match last_known_descr ds k with
      | Some d' => Some d'
      | None =>
          if String.eqb (nd_id d) k && bool_decide (is_Some (class_of_type (nd_type d)))
          then Some d else None
      end
  end.

(** A table as Python keeps it: no key twice, and under each key the node
    object of that id. *)
Definition table_ok (nodes : node_table) : Prop :=
  NoDup nodes.*1 ∧ Forall (λ kn, node_id kn.2 = kn.1) nodes.

(** The attributes node executions write: those of Filter and Action nodes. *)
Definition node_written_keys : list string :=
  ["filter_results"; "filter_passed"; "action"; "reject_reason"; "quarantine_folder";
   "forward_to"; "header_modifications"; "tags"].

(** The payload attribute that goes with an action type, and its value. *)
Definition action_payload (cfg : gmap string pyval) (ty : string) : option (string * pyval) :=
  if String.eqb ty "reject" then
    Some ("reject_reason", dict_get_or cfg "reason" (VStr "Message rejected by filter"))
  else if String.eqb ty "quarantine" then
    Some ("quarantine_folder", dict_get_or cfg "folder" (VStr "/var/mail/quarantine"))
  else if String.eqb ty "forward" then Some ("forward_to", dict_get cfg "forward_to")
  else if String.eqb ty "modify_headers" then
    Some ("header_modifications", dict_get_or cfg "headers" (VDict ∅))
  else if String.eqb ty "tag" then Some ("tags", dict_get_or cfg "tags" (VList []))
  else None.

(** A connection that can never be followed into a node: its target is not in
    the table, or its label is a non-empty string other than [true] and
    [false]. *)
Definition dead_connection (nodes : node_table) (c : connection) : bool :=
  match nodes_lookup nodes (target c) with
  | None => true
  | Some _ =>
      match condition c with
      | Some l => negb (String.eqb l "") && negb (String.eqb l "true")
                  && negb (String.eqb l "false")
      | None => false
      end
  end.

(** The concatenation of a list of strings. *)
Definition str_join (l : list string) : string := foldr String.append "" l.

(** The decoded texts of the [text/plain] parts among parts given by content
    type and payload. *)
Definition plain_texts `{EmailLib} (parts : list (string * string)) : list string :=
  (λ p, bytes_decode_ignore p.2) <$> List.filter (λ p, String.eqb p.1 "text/plain") parts.

(** ** Loading the configuration *)




(** ** main *)



(** [os.path.join(a, b)] on POSIX, for [b] that does not start with a slash. *)
Definition os_path_join (a b : string) : string :=
  if String.eqb a "" || str_endswith a "/" then a ++ b else a ++ "/" ++ b.

(** The operating system as [main] uses it. *)
Class OsEnv := {
  (** [os.makedirs(path, exist_ok=True)] *)
  os_makedirs : string → exc unit;
  (** [open(path, 'w')] followed by [f.write(text)] *)
  os_write_file : string → string → exc unit;
  (** [int(time.time())] *)
  time_now : Z;
}.

(** What a run of [main] does: the text printed, the file written, and the
    exit status. *)
Record main_effect := MainEffect {
  printed : option string;
  written : option (string * string);
  exit_status : nat;
}.

Definition newline : string := String (ascii_of_nat 10) EmptyString.

(** [print(email_content); sys.exit(0)] *)
Definition pass_through (email_content : string) : main_effect :=
  MainEffect (Some (email_content ++ newline)) None 0.

Section Main.
Context `{PyBuiltins} `{EmailLib} `{OsEnv}.

(** The quarantine branch of [main], up to [sys.exit(1)]. *)
Definition quarantine (email_content : string) (result : gmap string pyval)
  : exc main_effect :=
  match dict_get_or result "quarantine_folder" (VStr "/var/mail/quarantine") with
  | VStr quarantine_folder =>
      _ ← os_makedirs quarantine_folder;
      let quarantine_file :=
        os_path_join quarantine_folder ("email_" ++ pretty time_now ++ ".eml") in
      _ ← os_write_file quarantine_file email_content;
      mret (MainEffect None (Some (quarantine_file, email_content)) 1)
  | v => Raise (TypeError ("expected str, bytes or os.PathLike object, not "
                           ++ type_name v))
  end.

(** The part of [main] that handles the result of [process_email]. *)
Definition handle_result (email_content : string) (result : gmap string pyval)
  : main_effect :=
  let action := dict_get_or result "action" (VStr "accept") in
  if py_eq_str action "reject" then MainEffect None None 1
  else if py_eq_str action "quarantine" then
    match quarantine email_content result with
    | Ok eff => eff
    | Raise _ => pass_through email_content
    end
  else pass_through email_content.


End Main.

(** An operating system on which every call succeeds, at a fixed time. *)
Definition sample_os : OsEnv :=
  {| os_makedirs := λ _, Ok tt;
     os_write_file := λ _ _, Ok tt;
     time_now := 1700000000 |}.


(** A library run on a message with one header, [Subject], and no body. *)
Definition subject_only_lib (subject : string) : EmailLib :=
  {| message := unit;
     message_from_string := λ _, Ok tt;
     msg_get := λ _ name, Ok (VStr (if String.eqb name "Subject" then subject else ""));
     msg_is_multipart := λ _, Ok false;
     msg_walk := λ _, Ok [tt];
     msg_get_content_type := λ _, Ok "text/plain";
     msg_get_payload_decoded := λ _, Ok (Some "");
     bytes_decode_ignore := λ b, b;
     msg_items := λ _, Ok [("Subject", VStr subject)];
     now_isoformat := "2024-01-01T00:00:00" |}.

(** A library run on a multipart message given by its parts, a content type
    and a payload each; the first part walked is the container. *)
Definition multipart_lib : EmailLib :=
  {| message := list (string * option string);
     message_from_string := λ _, Ok [];
     msg_get := λ _ _, Ok (VStr "");
     msg_is_multipart := λ m, Ok (1 <? length m)%nat;
     msg_walk := λ m, Ok ((λ p, [p]) <$> m);
     msg_get_content_type := λ m, Ok (from_option fst "text/plain" (head m));
     msg_get_payload_decoded := λ m, Ok (from_option snd None (head m));
     bytes_decode_ignore := λ b, b;
     msg_items := λ _, Ok [];
     now_isoformat := "2024-01-01T00:00:00" |}.

(** * Properties *)

(** ** Connections *)

Section ConnectionProperties.

Lemma should_follow_none data : _should_follow_connection data None = true.
Proof. reflexivity. Qed.

Lemma should_follow_empty data : _should_follow_connection data (Some "") = true.
Proof. reflexivity. Qed.

Lemma should_follow_true data :
  _should_follow_connection data (Some "true") = filter_verdict data.
Proof. unfold _should_follow_connection, filter_verdict. simpl. by destruct (truthy _). Qed.

Lemma should_follow_false data :
  _should_follow_connection data (Some "false") = negb (filter_verdict data).
Proof. unfold _should_follow_connection, filter_verdict. simpl. by destruct (truthy _). Qed.

Lemma truthy_str_nonempty c : c ≠ "" → truthy (VStr c) = true.
Proof.
  intros Hc. simpl. destruct (String.eqb_spec c ""); [done | reflexivity].
Qed.

Lemma should_follow_other data c :
  c ≠ "" → c ≠ "true" → c ≠ "false" → _should_follow_connection data (Some c) = false.
Proof.
  intros H0 Ht Hf. unfold _should_follow_connection.
  rewrite truthy_str_nonempty by done. simpl.
  destruct (String.eqb_spec c "true"); [done |].
  destruct (String.eqb_spec c "false"); [done |]. reflexivity.
Qed.

(** C3, as stated, fails: the empty label is neither absent, nor ["true"],
    nor ["false"], yet a connection that carries it is followed, whatever
    the record. *)
Lemma should_follow_empty_label_followed :
  Some "" ≠ None ∧ "" ≠ "true" ∧ "" ≠ "false" ∧
  _should_follow_connection ∅ (Some "") = true.
Proof. repeat split; done. Qed.

(** C3 (amended): a connection whose label is absent or empty is always
    followed; a connection labelled ["true"] is followed iff [filter_passed]
    is truthy on the record; one labelled ["false"] iff it is falsy; every
    other non-empty label is never followed. For a given record exactly one
    of a ["true"] and a ["false"] connection is eligible. *)
Theorem should_follow_connection_spec (data : gmap string pyval) :
  _should_follow_connection data None = true ∧
  _should_follow_connection data (Some "") = true ∧
  (_should_follow_connection data (Some "true") = true ↔ filter_verdict data = true) ∧
  (_should_follow_connection data (Some "false") = true ↔ filter_verdict data = false) ∧
  (∀ c, c ≠ "" → c ≠ "true" → c ≠ "false" →
        _should_follow_connection data (Some c) = false) ∧
  _should_follow_connection data (Some "true")
    = negb (_should_follow_connection data (Some "false")).
Proof.
  rewrite should_follow_true, should_follow_false.
  repeat split; try done.
  - by destruct (filter_verdict data).
  - by destruct (filter_verdict data).
  - intros c. apply should_follow_other.
  - by destruct (filter_verdict data).
Qed.

Lemma should_follow_connection_spec_witness :
  _should_follow_connection hello_record (Some "maybe") = false.
Proof.
  destruct (should_follow_connection_spec hello_record) as (_ & _ & _ & _ & Hother & _).
  apply Hother; done.
Defined.

(** C10: on a record that has no [filter_passed] key, a connection labelled
    ["false"] is followed and one labelled ["true"] is not. *)
Theorem should_follow_without_verdict (data : gmap string pyval) :
  data !! "filter_passed" = None →
  _should_follow_connection data (Some "false") = true ∧
  _should_follow_connection data (Some "true") = false.
Proof.
  intros Hnone. rewrite should_follow_true, should_follow_false.
  unfold filter_verdict, dict_get. rewrite Hnone. done.
Qed.

Lemma should_follow_without_verdict_witness :
  _should_follow_connection hello_record (Some "false") = true ∧
  _should_follow_connection hello_record (Some "true") = false.
Proof. apply should_follow_without_verdict. reflexivity. Defined.

End ConnectionProperties.

(** ** Condition evaluation *)

Section EvaluatorProperties.
Context `{PyBuiltins}.

Lemma py_eq_str_true v s : py_eq_str v s = true ↔ v = VStr s.
Proof.
  destruct v; simpl; try (split; [done | by intros [=]]).
  destruct (String.eqb_spec s0 s); split; intros; simplify_eq; done.
Qed.

Lemma py_eq_str_false v s : v ≠ VStr s → py_eq_str v s = false.
Proof.
  intros Hne. destruct (py_eq_str v s) eqn:E; [| done].
  apply py_eq_str_true in E. done.
Qed.

Lemma evaluate_condition_raise fv op v e :
  _evaluate_condition_try fv op v = Raise e → _evaluate_condition fv op v = false.
Proof. unfold _evaluate_condition. by intros ->. Qed.

Lemma evaluate_condition_unknown fv op v :
  (∀ s, s ∈ known_operators → op ≠ VStr s) → _evaluate_condition fv op v = false.
Proof.
  intros Hop. unfold _evaluate_condition, _evaluate_condition_try.
  rewrite !py_eq_str_false; [done | apply Hop; unfold known_operators; set_solver ..].
Qed.

(** C5: condition evaluation is total and never raises: it yields the
    boolean of the [try] block, or [false] when that block raises; an unknown
    operator gives [false]; so does a field value or a comparison value that
    [float] rejects under [greater_than] / [less_than], a pattern that does
    not compile under [regex], and a comparison value without [lower] under
    the string operators. *)
Theorem evaluate_condition_total (fv : string) (op v : pyval) :
  (∃ b, _evaluate_condition fv op v = b ∧
        (_evaluate_condition_try fv op v = Ok b ∨
         (b = false ∧ ∃ e, _evaluate_condition_try fv op v = Raise e))) ∧
  ((∀ s, s ∈ known_operators → op ≠ VStr s) → _evaluate_condition fv op v = false) ∧
  (float_of_str fv = None →
     _evaluate_condition fv (VStr "greater_than") v = false ∧
     _evaluate_condition fv (VStr "less_than") v = false) ∧
  ((∃ e, py_float v = Raise e) →
     _evaluate_condition fv (VStr "greater_than") v = false ∧
     _evaluate_condition fv (VStr "less_than") v = false) ∧
  ((∀ p, v = VStr p → re_search_ignorecase p fv = None) →
     _evaluate_condition fv (VStr "regex") v = false) ∧
  ((∀ s, v ≠ VStr s) →
     ∀ o, o ∈ ["equals"; "contains"; "starts_with"; "ends_with"; "regex";
               "not_equals"; "not_contains"] →
          _evaluate_condition fv (VStr o) v = false).
Proof.
  split; [| split; [| split; [| split; [| split]]]].
  - unfold _evaluate_condition.
    destruct (_evaluate_condition_try fv op v) as [b | e]; eauto 6.
  - apply evaluate_condition_unknown.
  - intros Hfv. unfold _evaluate_condition, _evaluate_condition_try. simpl.
    rewrite Hfv. done.
  - intros [e He]. unfold _evaluate_condition, _evaluate_condition_try. simpl.
    rewrite He. destruct (float_of_str fv); done.
  - intros Hre. unfold _evaluate_condition, _evaluate_condition_try. simpl.
    destruct v; try done. simpl. rewrite (Hre s); done.
  - intros Hv o Ho. unfold _evaluate_condition, _evaluate_condition_try.
    assert (∀ T (k : string → exc T), py_lower v ≫= k = Raise (no_attribute v "lower")) as Hl.
    { intros. destruct v; try done. by destruct (Hv s). }
    repeat (apply elem_of_cons in Ho as [-> | Ho]); simpl; rewrite ?Hl; try done.
    + destruct v; try done. by destruct (Hv s).
    + by apply elem_of_nil in Ho.
Qed.

End EvaluatorProperties.

Lemma evaluate_condition_total_witness :
  @_evaluate_condition sample_builtins "abc" (VStr "greater_than") (VStr "1000") = false ∧
  @_evaluate_condition sample_builtins "12" (VStr "is_prime") (VStr "1000") = false ∧
  @_evaluate_condition sample_builtins "abc" (VStr "regex") (VStr "(") = false ∧
  @_evaluate_condition sample_builtins "12" (VStr "less_than") (VStr "many") = false ∧
  @_evaluate_condition sample_builtins "12" (VStr "equals") (VInt 12) = false.
Proof.
  split; [| split; [| split; [| split]]].
  - destruct (@evaluate_condition_total sample_builtins "abc" (VStr "greater_than") (VStr "1000"))
      as (_ & _ & Hf & _).
    apply Hf. reflexivity.
  - destruct (@evaluate_condition_total sample_builtins "12" (VStr "is_prime") (VStr "1000"))
      as (_ & Hu & _).
    apply Hu. intros s Hs [= <-]. unfold known_operators in Hs.
    repeat (apply elem_of_cons in Hs as [Hs | Hs]; [discriminate Hs |]).
    by apply elem_of_nil in Hs.
  - destruct (@evaluate_condition_total sample_builtins "abc" (VStr "regex") (VStr "("))
      as (_ & _ & _ & _ & Hr & _).
    apply Hr. intros p [= <-]. reflexivity.
  - destruct (@evaluate_condition_total sample_builtins "12" (VStr "less_than") (VStr "many"))
      as (_ & _ & _ & Hv & _).
    apply Hv. eexists. reflexivity.
  - destruct (@evaluate_condition_total sample_builtins "12" (VStr "equals") (VInt 12))
      as (_ & _ & _ & _ & _ & Hs).
    apply Hs; [done | apply list_elem_of_here].
Defined.

(** ** Filter nodes *)

Section FilterProperties.
Context `{PyBuiltins}.

Lemma evaluate_all_each data conds results :
  evaluate_all data conds = Ok results →
  Forall2 (λ c r, evaluate_one data c = Ok r) conds results.
Proof.
  revert results. induction conds as [| c cs IH]; intros results; simpl.
  - intros [= <-]. constructor.
  - destruct (evaluate_one data c) as [r |] eqn:Hone; simpl; [| done].
    destruct (evaluate_all data cs) as [rs |]; simpl; [| done].
    intros [= <-]. constructor; [done | by apply IH].
Qed.

Lemma evaluate_one_ok data c :
  condition_ok c = true → ∃ r, evaluate_one data c = Ok r.
Proof.
  destruct c as [| | | | | | d]; simpl; try done.
  intros Hh. unfold evaluate_one. simpl.
  destruct (dict_get d "field"); simpl in *; try done; eauto.
Qed.

Lemma evaluate_all_ok data conds :
  forallb condition_ok conds = true → ∃ results, evaluate_all data conds = Ok results.
Proof.
  induction conds as [| c cs IH]; simpl; [eauto |].
  intros [Hc Hcs]%andb_prop.
  destruct (evaluate_one_ok data c Hc) as [r ->].
  destruct (IH Hcs) as [rs ->]. simpl. eauto.
Qed.

(** The match result of a condition is what [_evaluate_condition] returns
    on the field value, the operator and the comparison value. *)
Lemma evaluate_one_result data d r :
  evaluate_one data (VDict d) = Ok r →
  ∃ fv, _get_field_value data (dict_get d "field") = Ok fv ∧
        r = FilterResult (dict_get d "field") (dict_get d "operator") (dict_get d "value")
              (_evaluate_condition fv (dict_get d "operator") (dict_get d "value")).
Proof.
  unfold evaluate_one. simpl.
  destruct (_get_field_value data (dict_get d "field")) as [fv |]; simpl; [| done].
  intros [= <-]. eauto.
Qed.

Lemma forallb_fr_result (results : list filter_result) :
  forallb fr_result results = true ↔ Forall (λ r, fr_result r = true) results.
Proof. rewrite forallb_forall, Forall_forall. setoid_rewrite list_elem_of_In. done. Qed.

Lemma existsb_fr_result (results : list filter_result) :
  existsb fr_result results = true ↔ Exists (λ r, fr_result r = true) results.
Proof.
  rewrite existsb_exists, Exists_exists. setoid_rewrite list_elem_of_In. done.
Qed.

(** C1: a Filter node whose conditions are well formed returns a record;
    whenever it returns one, [filter_results] lists the match result of each
    condition in order, and [filter_passed] is a boolean which, under logic
    [AND], is true iff every match result is true and, under [OR], is true
    iff at least one is; with no condition it is true under [AND] and false
    under [OR]. *)
Theorem FilterNode_filter_passed (cfg data : gmap string pyval) :
  (∀ conds, FilterNode_conditions cfg = VList conds →
            forallb condition_ok conds = true →
            ∃ r, FilterNode_execute cfg data = Ok r) ∧
  (∀ r, FilterNode_execute cfg data = Ok r →
     ∃ conds results b,
       py_iter (FilterNode_conditions cfg) = Ok conds ∧
       Forall2 (λ c fr, evaluate_one data c = Ok fr) conds results ∧
       r !! "filter_results" = Some (VList (filter_result_dict <$> results)) ∧
       r !! "filter_passed" = Some (VBool b) ∧
       (dict_get_or cfg "logic" (VStr "AND") = VStr "AND" →
          (b = true ↔ Forall (λ fr, fr_result fr = true) results) ∧
          (conds = [] → b = true)) ∧
       (dict_get_or cfg "logic" (VStr "AND") = VStr "OR" →
          (b = true ↔ Exists (λ fr, fr_result fr = true) results) ∧
          (conds = [] → b = false))).
Proof.
  split.
  - intros conds Hconds Hok. unfold FilterNode_execute. rewrite Hconds. simpl.
    destruct (evaluate_all_ok data conds Hok) as [results ->]. simpl.
    destruct (py_eq_str _ "AND"); eauto.
  - intros r. unfold FilterNode_execute.
    destruct (py_iter (FilterNode_conditions cfg)) as [conds |]; simpl; [| done].
    destruct (evaluate_all data conds) as [results |] eqn:Hall; simpl; [| done].
    pose proof (evaluate_all_each _ _ _ Hall) as Heach.
    assert (conds = [] → results = []) as Hnil.
    { intros ->. by inversion Heach. }
    destruct (py_eq_str _ "AND") eqn:Hlogic; intros [= <-].
    + exists conds, results, (forallb fr_result results).
      rewrite lookup_insert_ne, !lookup_insert_eq by done.
      do 4 (split; [done |]). split.
      * intros _. split; [apply forallb_fr_result | intros ->%Hnil; reflexivity].
      * intros Hor. rewrite Hor in Hlogic. discriminate Hlogic.
    + exists conds, results, (existsb fr_result results).
      rewrite lookup_insert_ne, !lookup_insert_eq by done.
      do 4 (split; [done |]). split.
      * intros Hand. rewrite Hand in Hlogic. discriminate Hlogic.
      * intros _. split; [apply existsb_fr_result | intros ->%Hnil; reflexivity].
Qed.

End FilterProperties.

Lemma FilterNode_filter_passed_witness :
  ∃ r, @FilterNode_execute sample_builtins
         (list_to_map [("logic", VStr "AND");
                       ("conditions", VList [VDict (list_to_map
                          [("field", VStr "size"); ("operator", VStr "greater_than");
                           ("value", VStr "1000")])])])
         hello_record = Ok r.
Proof.
  eapply (@FilterNode_filter_passed sample_builtins); reflexivity.
Defined.

(** ** Action nodes *)

Section ActionProperties.
Context `{PyBuiltins}.

Lemma ActionNode_execute_unrecognised cfg data :
  (∀ s, s ∈ recognised_actions → dict_get cfg "action_type" ≠ VStr s) →
  ActionNode_execute cfg data = Ok data.
Proof.
  intros Hty. unfold ActionNode_execute.
  rewrite !py_eq_str_false; [done | apply Hty; unfold recognised_actions; set_solver ..].
Qed.

End ActionProperties.

(** ** The monad of runs *)

Lemma run_ret_bind {A B} (a : A) (k : A → run B) :
  (([], Returned a) : run A) ≫= k = k a.
Proof. unfold mbind, run_bind. by destruct (k a). Qed.

Lemma run_bind_assoc {A B C} (m : run A) (k : A → run B) (k' : B → run C) :
  (m ≫= k) ≫= k' = m ≫= (λ a, k a ≫= k').
Proof.
  unfold mbind, run_bind. destruct m as [log [a | e |]]; try done.
  destruct (k a) as [log1 [b | e |]]; try done.
  destruct (k' b) as [log2 o]. by rewrite (assoc_L app).
Qed.

Lemma run_bind_ext {A B} (m : run A) (k k' : A → run B) :
  (∀ a, k a = k' a) → m ≫= k = m ≫= k'.
Proof.
  intros Hk. unfold mbind, run_bind. destruct m as [log [a | e |]]; try done.
  by rewrite Hk.
Qed.

(** ** Traversal *)

Section TraversalProperties.
Context `{PyBuiltins}.

Implicit Types (nodes : node_table) (visited : gset string).

(** The ids of the nodes of a table. *)
Lemma nodes_lookup_elem nodes k n :
  nodes_lookup nodes k = Some n → n ∈ nodes.*2.
Proof.
  induction nodes as [| [k' n'] rest IH]; simpl; [done |].
  destruct (String.eqb k' k).
  - intros [= ->]. apply list_elem_of_here.
  - intros Hn. apply list_elem_of_further. by apply IH.
Qed.

Lemma find_trigger_elem nodes n :
  find_trigger nodes = Some n → n ∈ nodes.*2 ∧ node_type n = "trigger".
Proof.
  unfold find_trigger. intros Hfind. apply find_some in Hfind as [Hin Hty].
  split; [by apply list_elem_of_In |]. by apply String.eqb_eq.
Qed.

Lemma find_trigger_none nodes :
  (∀ n, n ∈ nodes.*2 → node_type n ≠ "trigger") → find_trigger nodes = None.
Proof.
  intros Hno. unfold find_trigger.
  destruct (find _ _) as [n |] eqn:Hfind; [| done].
  apply find_trigger_elem in Hfind as [Hin Hty]. by destruct (Hno n Hin).
Qed.

(** *** Fuel *)

Lemma follow_connections_finished nodes descend conns result :
  (∀ n r, n ∈ nodes.*2 → finished (descend n r)) →
  finished (follow_connections nodes descend conns result).
Proof.
  intros Hd. revert result. induction conns as [| c cs IH]; intros result; simpl.
  - done.
  - destruct (_should_follow_connection result (condition c)); [| apply IH].
    destruct (nodes_lookup nodes (target c)) as [tn |] eqn:Hlook.
    + pose proof (Hd tn result (nodes_lookup_elem _ _ _ Hlook)) as Hfin.
      unfold finished, mbind, run_bind in *.
      destruct (descend tn result) as [log [r' | e |]]; simpl in *; try done.
      specialize (IH r'). destruct (follow_connections nodes descend cs r'). done.
    + specialize (IH result). unfold finished, mbind, run_bind in *. simpl.
      destruct (follow_connections nodes descend cs result). done.
Qed.

Lemma follow_connections_ext nodes d1 d2 conns result :
  (∀ n r, finished (d1 n r) → d2 n r = d1 n r) →
  finished (follow_connections nodes d1 conns result) →
  follow_connections nodes d2 conns result = follow_connections nodes d1 conns result.
Proof.
  intros Hd. revert result. induction conns as [| c cs IH]; intros result; simpl.
  - done.
  - destruct (_should_follow_connection result (condition c)); [| apply IH].
    destruct (nodes_lookup nodes (target c)) as [tn |].
    + unfold finished, mbind, run_bind. intros Hfin.
      assert (finished (d1 tn result)) as Hfin1.
      { unfold finished. destruct (d1 tn result) as [log [r' | e |]]; done. }
      rewrite (Hd _ _ Hfin1).
      destruct (d1 tn result) as [log [r' | e |]]; try done.
      rewrite IH; [done |].
      unfold finished. destruct (follow_connections nodes d1 cs r'). done.
    + unfold finished, mbind, run_bind. simpl. intros Hfin.
      rewrite IH; [done |].
      unfold finished. destruct (follow_connections nodes d1 cs result). done.
Qed.

(** More fuel does not change a traversal that finished. *)
Lemma execute_node_more_fuel (fuel fuel' : nat) nodes node data visited :
  (fuel ≤ fuel')%nat →
  finished (_execute_node fuel nodes node data visited) →
  _execute_node fuel' nodes node data visited = _execute_node fuel nodes node data visited.
Proof.
  revert fuel' node data visited.
  induction fuel as [| fuel IH]; intros fuel' node data visited Hle Hfin.
  - by destruct Hfin.
  - destruct fuel' as [| fuel']; [lia |]. simpl in *.
    destruct (decide (node_id node ∈ visited)); [done |].
    destruct (node_execute node data) as [result | e]; [| done].
    unfold finished, mbind, run_bind in *. simpl in *.
    rewrite (follow_connections_ext nodes
               (λ tn r, _execute_node fuel nodes tn r ({[node_id node]} ∪ visited))); [done | |].
    + intros tn r Htn. apply IH; [lia | done].
    + unfold finished. destruct (follow_connections _ _ _ _). done.
Qed.

Lemma node_ids_elem nodes n : n ∈ nodes.*2 → node_id n ∈ node_ids nodes.
Proof.
  intros Hn. unfold node_ids. apply elem_of_list_to_set, list_elem_of_fmap. eauto.
Qed.

Lemma node_ids_size nodes : (size (node_ids nodes) ≤ length nodes)%nat.
Proof.
  unfold node_ids. rewrite <- (length_fmap snd nodes), <- (length_fmap node_id nodes.*2).
  generalize (node_id <$> nodes.*2). intros l.
  induction l as [| x l IH]; simpl; [done |].
  rewrite size_union_alt, size_singleton.
  assert (size (list_to_set l ∖ {[x]} : gset string) ≤ size (list_to_set l : gset string))%nat.
  { apply subseteq_size. set_solver. }
  lia.
Qed.

(** Fuel beyond the number of ids not yet visited is enough. *)
Lemma execute_node_finished (fuel : nat) nodes node data visited :
  node ∈ nodes.*2 →
  (size (node_ids nodes ∖ visited) < fuel)%nat →
  finished (_execute_node fuel nodes node data visited).
Proof.
  revert node data visited.
  induction fuel as [| fuel IH]; intros node data visited Hnode Hsize; [lia |].
  simpl. destruct (decide (node_id node ∈ visited)) as [| Hfresh]; [done |].
  destruct (node_execute node data) as [result | e]; [| done].
  unfold finished, mbind, run_bind. simpl.
  pose proof (follow_connections_finished nodes
    (λ tn r, _execute_node fuel nodes tn r ({[node_id node]} ∪ visited))
    (connections node) result) as Hfin.
  destruct (follow_connections _ _ _ _). apply Hfin.
  intros tn r Htn. apply IH; [done |].
  assert (node_ids nodes ∖ ({[node_id node]} ∪ visited) ⊂ node_ids nodes ∖ visited) as Hsub.
  { pose proof (node_ids_elem _ _ Hnode). set_solver. }
  apply subset_size in Hsub. lia.
Qed.

Lemma execute_node_step (fuel : nat) nodes node data visited result :
  node_id node ∉ visited →
  node_execute node data = Ok result →
  _execute_node (S fuel) nodes node data visited
  = (_ ← tell (Executed (node_id node));
     follow_connections nodes
       (λ target_node r, _execute_node fuel nodes target_node r ({[node_id node]} ∪ visited))
       (connections node) result).
Proof.
  intros Hfresh Hexec. simpl. rewrite decide_False by done. rewrite Hexec.
  unfold mbind, run_bind, tell, lift_exc. simpl.
  by destruct (follow_connections _ _ _ _).
Qed.

Lemma execute_node_leaf (fuel : nat) nodes node data visited result :
  node_id node ∉ visited →
  connections node = [] →
  node_execute node data = Ok result →
  _execute_node (S fuel) nodes node data visited
  = ([Executed (node_id node)], Returned result).
Proof.
  intros Hfresh Hleaf Hexec. rewrite (execute_node_step _ _ _ _ _ result) by done.
  by rewrite Hleaf.
Qed.

End TraversalProperties.

(** ** Building the graph *)

Section BuildProperties.

Implicit Types (nodes : node_table).

Lemma nodes_store_elem nodes k n m :
  m ∈ (nodes_store nodes k n).*2 → m = n ∨ m ∈ nodes.*2.
Proof.
  induction nodes as [| [k' n'] rest IH]; simpl.
  - intros ->%list_elem_of_singleton. by left.
  - destruct (String.eqb k' k); simpl; intros [-> | Hm]%elem_of_cons.
    + by left.
    + right. by apply list_elem_of_further.
    + right. apply list_elem_of_here.
    + destruct (IH Hm) as [-> | Hin]; [by left |]. right. by apply list_elem_of_further.
Qed.

Lemma class_of_type_trigger ty :
  class_of_type ty = Some TriggerNode → ty = "trigger".
Proof.
  unfold class_of_type.
  destruct (String.eqb_spec ty "trigger"); [done |].
  destruct (String.eqb ty "filter"); [done |].
  destruct (String.eqb ty "action"); done.
Qed.

Lemma node_type_trigger n : node_type n = "trigger" ↔ class_of n = TriggerNode.
Proof. unfold node_type. destruct (class_of n); split; done. Qed.

Lemma build_nodes_no_trigger descrs nodes :
  (∀ d, d ∈ descrs → nd_type d ≠ "trigger") →
  (∀ n, n ∈ nodes.*2 → node_type n ≠ "trigger") →
  ∀ n, n ∈ (build_nodes descrs nodes).*2 → node_type n ≠ "trigger".
Proof.
  revert nodes. induction descrs as [| d ds IH]; intros nodes Hds Hnodes; simpl; [done |].
  assert (∀ d', d' ∈ ds → nd_type d' ≠ "trigger") as Hds'.
  { intros d' Hd'. apply Hds. by apply list_elem_of_further. }
  destruct (class_of_type (nd_type d)) as [c |] eqn:Hc; [| by apply IH].
  apply IH; [done |]. intros n [-> | Hn]%nodes_store_elem; [| by apply Hnodes].
  rewrite node_type_trigger. simpl. intros ->.
  apply class_of_type_trigger in Hc. apply (Hds d); [apply list_elem_of_here | done].
Qed.

Lemma build_connections_no_trigger conns nodes :
  (∀ n, n ∈ nodes.*2 → node_type n ≠ "trigger") →
  ∀ n, n ∈ (build_connections conns nodes).*2 → node_type n ≠ "trigger".
Proof.
  revert nodes. induction conns as [| c cs IH]; intros nodes Hnodes; simpl; [done |].
  destruct (nodes_lookup nodes (cd_source c)) as [src |] eqn:Hsrc; [| by apply IH].
  apply IH. intros n [-> | Hn]%nodes_store_elem; [| by apply Hnodes].
  apply nodes_lookup_elem, Hnodes in Hsrc. done.
Qed.

Lemma build_workflow_no_trigger cfg :
  (∀ d, d ∈ wc_nodes cfg → nd_type d ≠ "trigger") →
  ∀ n, n ∈ (_build_workflow cfg).*2 → node_type n ≠ "trigger".
Proof.
  intros Hcfg. unfold _build_workflow.
  apply build_connections_no_trigger, build_nodes_no_trigger; [done |].
  intros n Hn. simpl in Hn. by apply elem_of_nil in Hn.
Qed.

End BuildProperties.

(** ** Running a workflow *)

Section ExecuteProperties.
Context `{PyBuiltins}.

Implicit Types (nodes : node_table) (visited : gset string).

Lemma execute_fuel_no_trigger (fuel : nat) nodes data :
  (∀ n, n ∈ nodes.*2 → node_type n ≠ "trigger") →
  execute_fuel fuel nodes data = ([NoTriggerNode], Returned no_trigger_record).
Proof. intros Hno. unfold execute_fuel. by rewrite find_trigger_none. Qed.

(** C4: on a graph without a Trigger node, whether given as a node table or
    built from a configuration without a trigger descriptor, running the
    workflow on any record returns the record [{action: accept, error: No
    trigger node}]; the only event is the error report, so no node is
    executed. *)
Theorem execute_without_trigger (cfg : workflow_config) (nodes : node_table)
    (data : gmap string pyval) :
  ((∀ n, n ∈ nodes.*2 → node_type n ≠ "trigger") →
     execute nodes data = ([NoTriggerNode], Returned no_trigger_record)) ∧
  ((∀ d, d ∈ wc_nodes cfg → nd_type d ≠ "trigger") →
     execute (_build_workflow cfg) data = ([NoTriggerNode], Returned no_trigger_record)) ∧
  no_trigger_record !! "action" = Some (VStr "accept") ∧
  is_Some (no_trigger_record !! "error") ∧
  (∀ id, Executed id ∉ [NoTriggerNode]).
Proof.
  split; [| split; [| split; [| split]]].
  - apply execute_fuel_no_trigger.
  - intros Hcfg. by apply execute_fuel_no_trigger, build_workflow_no_trigger.
  - reflexivity.
  - by eexists.
  - intros id [=]%list_elem_of_singleton.
Qed.

End ExecuteProperties.

Lemma execute_without_trigger_witness :
  @execute sample_builtins (_build_workflow triggerless_config) spam_record
    = ([NoTriggerNode], Returned no_trigger_record).
Proof.
  apply (@execute_without_trigger sample_builtins triggerless_config []).
  intros d Hd. unfold triggerless_config in Hd. simpl in Hd.
  apply list_elem_of_singleton in Hd. rewrite Hd. simpl. discriminate.
Defined.

(** ** The default workflow *)

Section DefaultWorkflow.
Context `{PyBuiltins}.

Implicit Types (nodes : node_table) (visited : gset string).

Lemma default_engine_nodes :
  default_engine =
    [("trigger1", Node TriggerNode "trigger1" trigger1_config [Connection "filter1" None]);
     ("filter1", Node FilterNode "filter1" filter1_config
                   [Connection "action1" (Some "true"); Connection "action2" (Some "false")]);
     ("action1", Node ActionNode "action1" action1_config []);
     ("action2", Node ActionNode "action2" action2_config [])].
Proof. reflexivity. Qed.

Lemma evaluate_subject_condition (data : gmap string pyval) s :
  data !! "subject" = Some (VStr s) →
  evaluate_one data spam_subject_condition
  = Ok (FilterResult (VStr "subject") (VStr "contains") (VStr "[SPAM]")
          (str_contains "[spam]" (str_lower s))).
Proof.
  intros Hs. unfold evaluate_one.
  change (py_get spam_subject_condition "field") with (Ok (VStr "subject")).
  change (py_get spam_subject_condition "operator") with (Ok (VStr "contains")).
  change (py_get spam_subject_condition "value") with (Ok (VStr "[SPAM]")).
  cbn [mbind exc_bind mret exc_ret].
  unfold _get_field_value.
  change (default "subject" (field_map !! "subject")) with "subject".
  unfold dict_get_or. rewrite Hs. reflexivity.
Qed.

Lemma evaluate_sender_condition (data : gmap string pyval) :
  evaluate_one data spam_sender_condition
  = Ok (FilterResult (VStr "sender") (VStr "contains") (VStr "noreply@spam")
          (str_contains "noreply@spam"
             (str_lower (py_str (dict_get_or data "from" (VStr "")))))).
Proof. reflexivity. Qed.

(** The verdict of the default filter on a record. *)
Lemma default_filter_execute (data : gmap string pyval) s :
  data !! "subject" = Some (VStr s) →
  ∃ r0, FilterNode_execute filter1_config data
        = Ok (<["filter_passed" := VBool (default_verdict s data)]> r0).
Proof.
  intros Hs. unfold FilterNode_execute.
  change (py_iter (FilterNode_conditions filter1_config))
    with (Ok [spam_subject_condition; spam_sender_condition]).
  cbn [mbind exc_bind evaluate_all].
  rewrite (evaluate_subject_condition data s Hs), evaluate_sender_condition.
  change (dict_get_or filter1_config "logic" (VStr "AND")) with (VStr "OR").
  cbn. rewrite orb_false_r. eauto.
Qed.

Lemma filter_verdict_insert (r : gmap string pyval) b :
  filter_verdict (<["filter_passed" := VBool b]> r) = b.
Proof. unfold filter_verdict, dict_get. by rewrite lookup_insert_eq. Qed.

Lemma filter_verdict_insert_ne (r : gmap string pyval) k v :
  k ≠ "filter_passed" → filter_verdict (<[k := v]> r) = filter_verdict r.
Proof. intros Hk. unfold filter_verdict, dict_get. by rewrite lookup_insert_ne. Qed.

(** The run of the default workflow on a record that has a subject. *)
Lemma default_engine_run (data : gmap string pyval) s :
  data !! "subject" = Some (VStr s) →
  ∃ r, execute default_engine data
       = ([Executed "trigger1"; Executed "filter1";
           Executed (if default_verdict s data then "action1" else "action2")],
          Returned r) ∧
       r !! "action"
       = Some (VStr (if default_verdict s data then "reject" else "accept")).
Proof.
  intros Hs. destruct (default_filter_execute data s Hs) as [r0 Hfilter].
  unfold execute, execute_fuel.
  change (find_trigger default_engine) with
    (Some (Node TriggerNode "trigger1" trigger1_config [Connection "filter1" None])).
  change (length default_engine) with 4%nat. cbv beta iota.
  rewrite (execute_node_step _ _ _ _ _ data); [| set_solver | done].
  cbn [connections node_id follow_connections condition target _should_follow_connection].
  change (nodes_lookup default_engine "filter1") with
    (Some (Node FilterNode "filter1" filter1_config
             [Connection "action1" (Some "true"); Connection "action2" (Some "false")])).
  cbv beta iota.
  assert ("filter1" ∉ ({["trigger1"]} ∪ ∅ : gset string)) as Hfresh by set_solver.
  rewrite (execute_node_step 3 default_engine
             (Node FilterNode "filter1" filter1_config
                [Connection "action1" (Some "true"); Connection "action2" (Some "false")])
             data _ _ Hfresh Hfilter).
  cbn [connections node_id follow_connections condition target].
  rewrite should_follow_true, filter_verdict_insert.
  destruct (default_verdict s data).
  - change (nodes_lookup default_engine "action1") with
      (Some (Node ActionNode "action1" action1_config [])).
    cbv beta iota.
    erewrite execute_node_leaf; [| set_solver | done | reflexivity].
    unfold mbind at 4. unfold run_bind at 4. cbn [app].
    rewrite should_follow_false, !filter_verdict_insert_ne, filter_verdict_insert by done.
    eexists. split; [reflexivity |].
    rewrite lookup_insert_ne by done. apply lookup_insert_eq.
  - rewrite should_follow_false, filter_verdict_insert. cbn [negb].
    change (nodes_lookup default_engine "action2") with
      (Some (Node ActionNode "action2" action2_config [])).
    cbv beta iota.
    erewrite execute_node_leaf; [| set_solver | done | reflexivity].
    eexists. split; [reflexivity |]. apply lookup_insert_eq.
Qed.

End DefaultWorkflow.

Section TerminationProperties.
Context `{PyBuiltins}.

Implicit Types (nodes : node_table) (visited : gset string).

Lemma execute_node_cycle_guard (fuel : nat) nodes node data visited :
  node_id node ∈ visited →
  _execute_node (S fuel) nodes node data visited
    = ([CircularReference (node_id node)], Returned data).
Proof. intros Hin. simpl. by rewrite decide_True. Qed.

Lemma execute_fuel_finished (fuel : nat) nodes data :
  (length nodes < fuel)%nat → finished (execute_fuel fuel nodes data).
Proof.
  intros Hfuel. unfold execute_fuel.
  destruct (find_trigger nodes) as [t |] eqn:Ht; [| done].
  apply find_trigger_elem in Ht as [Hin _].
  apply execute_node_finished; [done |].
  pose proof (node_ids_size nodes).
  assert (size (node_ids nodes ∖ ∅) ≤ size (node_ids nodes))%nat
    by (apply subseteq_size; set_solver).
  lia.
Qed.

Lemma execute_finished nodes data : finished (execute nodes data).
Proof. apply execute_fuel_finished. lia. Qed.

Lemma execute_fuel_enough (fuel : nat) nodes data :
  (length nodes < fuel)%nat → execute_fuel fuel nodes data = execute nodes data.
Proof.
  intros Hfuel. pose proof (execute_finished nodes data) as Hfin.
  unfold execute, execute_fuel in *.
  destruct (find_trigger nodes) as [t |]; [| done].
  apply execute_node_more_fuel; [lia | done].
Qed.

(** C2: on every graph, cyclic or not, the traversal from the trigger node
    terminates: a recursion depth of one more than the number of nodes is
    never exhausted, and any larger depth gives the same run. A node whose
    id is already in the visited set of the branch is not executed again:
    the call reports the circular reference and returns the record it was
    given. *)
Theorem traversal_terminates (nodes : node_table) (data : gmap string pyval) :
  finished (execute nodes data) ∧
  (∀ fuel : nat, (length nodes < fuel)%nat →
     execute_fuel fuel nodes data = execute nodes data) ∧
  (∀ (fuel : nat) node d visited,
     node_id node ∈ visited →
     _execute_node (S fuel) nodes node d visited
       = ([CircularReference (node_id node)], Returned d)).
Proof.
  split; [apply execute_finished |].
  split; [intros fuel; apply execute_fuel_enough |].
  intros fuel node d visited. apply execute_node_cycle_guard.
Qed.

(** C7: the graph built from the default configuration rejects every record
    whose subject is ["[SPAM] buy now"], whatever its other fields, the
    record with otherwise empty fields among them; it accepts every record
    with subject ["hello"] and sender ["a@b.com"]. *)
Theorem default_workflow_examples (data : gmap string pyval) :
  default_engine = _build_workflow default_config ∧
  (data !! "subject" = Some (VStr "[SPAM] buy now") →
     final_action (execute default_engine data) = Some (VStr "reject")) ∧
  (data !! "subject" = Some (VStr "hello") → data !! "from" = Some (VStr "a@b.com") →
     final_action (execute default_engine data) = Some (VStr "accept")) ∧
  final_action (execute default_engine spam_record) = Some (VStr "reject") ∧
  final_action (execute default_engine hello_record) = Some (VStr "accept").
Proof.
  split; [reflexivity |]. split; [| split].
  - intros Hs. destruct (default_engine_run data _ Hs) as (r & Hrun & Haction).
    unfold final_action. rewrite Hrun. simpl. rewrite Haction.
    unfold default_verdict.
    by change (str_contains "[spam]" (str_lower "[SPAM] buy now")) with true.
  - intros Hs Hfrom. destruct (default_engine_run data _ Hs) as (r & Hrun & Haction).
    unfold final_action. rewrite Hrun. simpl. rewrite Haction.
    unfold default_verdict, dict_get_or. rewrite Hfrom. reflexivity.
  - split; vm_compute; reflexivity.
Qed.

(** C9: an Action node whose [action_type] is none of the six recognised
    ones returns its input record: no key is set, [action] included, and the
    traversal goes on from the node's connections with that record. *)
Theorem unrecognised_action_is_identity (n : WorkflowNode) (data : gmap string pyval) :
  class_of n = ActionNode →
  (∀ s, s ∈ recognised_actions → dict_get (config n) "action_type" ≠ VStr s) →
  node_execute n data = Ok data ∧
  (∀ r, node_execute n data = Ok r → r !! "action" = data !! "action") ∧
  (∀ (fuel : nat) nodes visited,
     node_id n ∉ visited →
     _execute_node (S fuel) nodes n data visited
       = (_ ← tell (Executed (node_id n));
          follow_connections nodes
            (λ target_node r,
               _execute_node fuel nodes target_node r ({[node_id n]} ∪ visited))
            (connections n) data)).
Proof.
  intros Hclass Hty.
  assert (node_execute n data = Ok data) as Hexec.
  { unfold node_execute. rewrite Hclass. by apply ActionNode_execute_unrecognised. }
  split; [done |]. split.
  - intros r. rewrite Hexec. by intros [= <-].
  - intros fuel nodes visited Hfresh. by apply execute_node_step.
Qed.

End TerminationProperties.

Lemma default_workflow_examples_witness :
  final_action (@execute sample_builtins default_engine spam_record) = Some (VStr "reject").
Proof.
  destruct (@default_workflow_examples sample_builtins spam_record) as (_ & Hspam & _).
  apply Hspam. reflexivity.
Defined.

Lemma traversal_terminates_witness :
  @_execute_node sample_builtins 1 (_build_workflow cyclic_config)
     (Node FilterNode "check" ∅ []) hello_record {[ "start"; "check" ]}
  = ([CircularReference "check"], Returned hello_record).
Proof.
  apply (@traversal_terminates sample_builtins (_build_workflow cyclic_config) hello_record).
  simpl. apply elem_of_union_r, elem_of_singleton. reflexivity.
Defined.

Lemma unrecognised_action_is_identity_witness :
  @node_execute sample_builtins
     (Node ActionNode "a" (list_to_map [("action_type", VStr "bounce")]) []) spam_record
  = Ok spam_record.
Proof.
  apply (@unrecognised_action_is_identity sample_builtins); [reflexivity |].
  intros s Hs. unfold recognised_actions in Hs.
  repeat (apply elem_of_cons in Hs as [-> | Hs]; [discriminate |]).
  by apply elem_of_nil in Hs.
Defined.

(** ** Visited sets: copies against sharing *)

Section StoreProperties.
Context `{PyBuiltins}.

Implicit Types (nodes : node_table) (st : set_store).

Lemma follow_connections_app nodes descend conns1 conns2 result :
  follow_connections nodes descend (conns1 ++ conns2)%list result
  = follow_connections nodes descend conns1 result
      ≫= follow_connections nodes descend conns2.
Proof.
  revert result. induction conns1 as [| c cs IH]; intros result; simpl.
  - symmetry. apply run_ret_bind.
  - destruct (_should_follow_connection result (condition c)); [| apply IH].
    destruct (nodes_lookup nodes (target c)) as [tn |].
    + etrans; [| symmetry; apply run_bind_assoc].
      apply run_bind_ext. intros r'. apply IH.
    + rewrite IH. unfold mbind, run_bind. simpl.
      destruct (follow_connections nodes descend cs result) as [log [r' | e |]]; try done.
      by destruct (follow_connections nodes descend conns2 r').
Qed.

Lemma follow_connections_store_spec nodes descend_store descend V (ref : nat) conns :
  (∀ node data (r : nat) s, (r < length s)%nat →
     ∃ s', descend_store node data r s = (s', descend node data (set_at s r)) ∧
           (length s ≤ length s')%nat ∧
           ∀ i : nat, (i < length s)%nat → i ≠ r → s' !! i = s !! i) →
  ∀ result st, (ref < length st)%nat → st !! ref = Some V →
  ∃ st', follow_connections_store nodes descend_store ref conns result st
           = (st', follow_connections nodes (λ tn r, descend tn r V) conns result) ∧
         (length st ≤ length st')%nat ∧
         ∀ i : nat, (i < length st)%nat → st' !! i = st !! i.
Proof.
  intros Hd. induction conns as [| c cs IH]; intros result st Href HV; simpl.
  - exists st. done.
  - destruct (_should_follow_connection result (condition c)); [| by apply IH].
    destruct (nodes_lookup nodes (target c)) as [tn |].
    + assert (set_at st ref = V) as HsetV by (unfold set_at; by rewrite HV).
      rewrite HsetV.
      destruct (Hd tn result (length st) (st ++ [V])%list) as (st2 & Heq & Hlen & Hframe).
      { rewrite length_app. simpl. lia. }
      rewrite Heq. rewrite length_app in Hlen. simpl in Hlen.
      assert (set_at (st ++ [V])%list (length st) = V) as ->.
      { unfold set_at. by rewrite (list_lookup_middle st [] V (length st)). }
      assert (∀ i : nat, (i < length st)%nat → st2 !! i = st !! i) as Hframe2.
      { intros i Hi. rewrite Hframe; [| rewrite length_app; simpl; lia | lia].
        by rewrite lookup_app_l. }
      unfold mbind, run_bind.
      destruct (descend tn result V) as [log [r' | e |]].
      * destruct (IH r' st2) as (st3 & Heq3 & Hlen3 & Hframe3).
        { lia. } { by rewrite Hframe2. }
        rewrite Heq3. destruct (follow_connections _ _ _ _) as [log' o].
        exists st3. split; [done |]. split; [lia |].
        intros i Hi. rewrite Hframe3 by lia. by apply Hframe2.
      * exists st2. split; [done |]. split; [lia | done].
      * exists st2. split; [done |]. split; [lia | done].
    + destruct (IH result st Href HV) as (st' & Heq & Hlen & Hframe).
      rewrite Heq. unfold mbind, run_bind. simpl.
      destruct (follow_connections _ _ _ _) as [log' o].
      exists st'. done.
Qed.

Lemma execute_node_store_spec (fuel : nat) nodes node data (ref : nat) st :
  (ref < length st)%nat →
  ∃ st', _execute_node_store fuel nodes node data ref st
           = (st', _execute_node fuel nodes node data (set_at st ref)) ∧
         (length st ≤ length st')%nat ∧
         ∀ i : nat, (i < length st)%nat → i ≠ ref → st' !! i = st !! i.
Proof.
  revert node data ref st.
  induction fuel as [| fuel IH]; intros node data ref st Href; simpl.
  - exists st. done.
  - destruct (decide (node_id node ∈ set_at st ref)); [by exists st |].
    set (V := {[node_id node]} ∪ set_at st ref).
    destruct (node_execute node data) as [result | e]; simpl.
    + destruct (follow_connections_store_spec nodes (_execute_node_store fuel nodes)
                  (_execute_node fuel nodes) V ref (connections node) IH
                  result (<[ref := V]> st)) as (st' & Heq & Hlen & Hframe).
      { by rewrite length_insert. } { by apply list_lookup_insert_eq. }
      rewrite Heq. rewrite length_insert in Hlen, Hframe.
      unfold mbind, run_bind. simpl.
      destruct (follow_connections _ _ _ _) as [log o].
      exists st'. split; [done |]. split; [done |].
      intros i Hi Hne. rewrite Hframe by done. by apply list_lookup_insert_ne.
    + exists (<[ref := V]> st). rewrite length_insert. split; [done |]. split; [done |].
      intros i Hi Hne. by apply list_lookup_insert_ne.
Qed.

Lemma execute_store_run nodes data : (execute_store nodes data).2 = execute nodes data.
Proof.
  unfold execute_store, execute, execute_fuel.
  destruct (find_trigger nodes) as [t |]; [| done].
  destruct (execute_node_store_spec (S (length nodes)) nodes t data 0 [∅])
    as (st' & Heq & _); [simpl; lia |].
  by rewrite Heq.
Qed.

(** C8: every descent into the target of a followed connection works on a
    copy of the visited set. Running the traversal with the sets as objects
    of a store, where each descent allocates a copy and adds to it in place,
    gives the run of the by-value traversal and leaves every other set of
    the store as it was, so that siblings start from the same set. The
    record returned by a descent is the one the following connections are
    tried on, in the order of the connection list. In the diamond graph the
    shared descendant is executed once per incoming branch. *)
Theorem visited_copied_per_descent (fuel : nat) (nodes : node_table) (node : WorkflowNode)
    (data : gmap string pyval) (ref : nat) (st : set_store)
    (descend : WorkflowNode → gmap string pyval → run (gmap string pyval))
    (conns1 conns2 : list connection) :
  ((ref < length st)%nat →
     (_execute_node_store fuel nodes node data ref st).2
       = _execute_node fuel nodes node data (set_at st ref) ∧
     ∀ i : nat, (i < length st)%nat → i ≠ ref →
       (_execute_node_store fuel nodes node data ref st).1 !! i = st !! i) ∧
  (execute_store nodes data).2 = execute nodes data ∧
  (node_id node ∉ set_at st ref →
     ∀ result, node_execute node data = Ok result →
       _execute_node (S fuel) nodes node data (set_at st ref)
         = (_ ← tell (Executed (node_id node));
            follow_connections nodes
              (λ target_node r, _execute_node fuel nodes target_node r
                                  ({[node_id node]} ∪ set_at st ref))
              (connections node) result)) ∧
  follow_connections nodes descend (conns1 ++ conns2)%list data
    = follow_connections nodes descend conns1 data
        ≫= follow_connections nodes descend conns2 ∧
  (∀ c target_node,
     _should_follow_connection data (condition c) = true →
     nodes_lookup nodes (target c) = Some target_node →
     follow_connections nodes descend (c :: conns2) data
       = descend target_node data ≫= follow_connections nodes descend conns2) ∧
  (execute (_build_workflow diamond_config) hello_record).1
    = [Executed "top"; Executed "left"; Executed "join";
       Executed "right"; Executed "join"].
Proof.
  split; [| split; [| split; [| split; [| split]]]].
  - intros Href.
    destruct (execute_node_store_spec fuel nodes node data ref st Href)
      as (st' & Heq & _ & Hframe).
    rewrite Heq. done.
  - apply execute_store_run.
  - intros Hfresh result Hexec. by apply execute_node_step.
  - apply follow_connections_app.
  - intros c tn Hfollow Hlook. simpl. by rewrite Hfollow, Hlook.
  - vm_compute. reflexivity.
Qed.

End StoreProperties.

Lemma visited_copied_per_descent_witness :
  (@_execute_node_store sample_builtins 3 (_build_workflow diamond_config)
     (Node ActionNode "left" (list_to_map [("action_type", VStr "tag")])
           [Connection "join" None])
     hello_record 1 [{[ "top" ]}; {[ "top" ]}]).2
  = @_execute_node sample_builtins 3 (_build_workflow diamond_config)
     (Node ActionNode "left" (list_to_map [("action_type", VStr "tag")])
           [Connection "join" None])
     hello_record (set_at [{[ "top" ]}; {[ "top" ]}] 1).
Proof.
  destruct (@visited_copied_per_descent sample_builtins 3 (_build_workflow diamond_config)
              (Node ActionNode "left" (list_to_map [("action_type", VStr "tag")])
                    [Connection "join" None])
              hello_record 1 [{[ "top" ]}; {[ "top" ]}] (λ _ r, mret r) [] [])
    as [Hcopy _].
  apply Hcopy. simpl. lia.
Defined.

(** ** The processing boundary *)

Section ProcessorProperties.
Context `{PyBuiltins} `{EmailLib}.

Lemma error_record_fields e :
  error_record e !! "action" = Some (VStr "accept") ∧
  error_record e !! "error" = Some (VStr (exn_msg e)) ∧
  ∀ f, f ∈ extracted_fields → error_record e !! f = None.
Proof.
  split; [reflexivity |]. split; [reflexivity |].
  intros f Hf. unfold extracted_fields in Hf. unfold error_record.
  repeat (apply elem_of_cons in Hf as [-> | Hf]; [reflexivity |]).
  by apply elem_of_nil in Hf.
Qed.

Lemma process_email_try_finished engine content :
  finished (process_email_try engine content).
Proof.
  unfold process_email_try.
  destruct (extract_email_data content) as [d | e]; [| done].
  destruct engine as [nodes |]; [| done].
  pose proof (execute_finished nodes d) as Hfin.
  unfold finished, mbind, run_bind, lift_exc in *.
  by destruct (execute nodes d) as [log o].
Qed.

Lemma process_email_returns engine content :
  ∃ r, (process_email engine content).2 = Returned r.
Proof.
  pose proof (process_email_try_finished engine content) as Hfin.
  unfold process_email, finished in *.
  destruct (process_email_try engine content) as [log [r | e |]]; simpl in *; eauto.
  done.
Qed.

Lemma process_email_handler engine content log e :
  process_email_try engine content = (log, Raised e) →
  process_email engine content = (log, Returned (error_record e)).
Proof. unfold process_email. by intros ->. Qed.

Lemma process_email_parse_fault engine content e :
  extract_email_data content = Raise e →
  process_email engine content = ([], Returned (error_record e)).
Proof.
  intros Hparse. apply process_email_handler.
  unfold process_email_try. by rewrite Hparse.
Qed.

Lemma extract_body_no_payload msg :
  msg_is_multipart msg = Ok false →
  msg_get_content_type msg = Ok "text/plain" →
  msg_get_payload_decoded msg = Ok None →
  _extract_body msg = Raise (no_attribute VNone "decode").
Proof.
  intros Hmp Hct Hpl. unfold _extract_body, decoded_payload.
  rewrite Hmp. simpl. rewrite Hct. simpl. rewrite Hpl. done.
Qed.

(** C6 (amended): [process_email] always returns a record, whatever the
    message and whatever the library calls do: no exception crosses the
    boundary. When the [try] block raises, in the parsing of the message,
    in [_extract_body] or in the workflow, the record returned is the one
    of the handler, [{action: accept, error: <message>}]: it has the
    [error] attribute and the action [accept], and none of the extracted
    fields. *)
Theorem process_email_never_raises (engine : option node_table) (content : string) :
  (∃ r, (process_email engine content).2 = Returned r) ∧
  (∀ e, extract_email_data content = Raise e →
        process_email engine content = ([], Returned (error_record e))) ∧
  (∀ log e, process_email_try engine content = (log, Raised e) →
            process_email engine content = (log, Returned (error_record e))) ∧
  (∀ msg, msg_is_multipart msg = Ok false →
          msg_get_content_type msg = Ok "text/plain" →
          msg_get_payload_decoded msg = Ok None →
          _extract_body msg = Raise (no_attribute VNone "decode")) ∧
  (∀ e, error_record e !! "action" = Some (VStr "accept") ∧
        error_record e !! "error" = Some (VStr (exn_msg e)) ∧
        ∀ f, f ∈ extracted_fields → error_record e !! f = None).
Proof.
  split; [apply process_email_returns |].
  split; [intros e; apply process_email_parse_fault |].
  split; [intros log e; apply process_email_handler |].
  split; [apply extract_body_no_payload | apply error_record_fields].
Qed.

End ProcessorProperties.

(** C6, as stated, fails: when the parser raises, the record returned has
    the [error] attribute but none of the fields an extraction produces,
    empty or not. *)
Lemma process_email_fault_record_has_no_fields :
  let lib := failing_email_lib (ValueError "malformed message") in
  @extract_email_data lib "Subject: hi" = Raise (ValueError "malformed message") ∧
  ∃ r, @process_email sample_builtins lib (Some default_engine) "Subject: hi"
         = ([], Returned r) ∧
       is_Some (r !! "error") ∧
       r !! "from" = None ∧ r !! "to" = None ∧ r !! "subject" = None ∧
       r !! "body" = None ∧ r !! "size" = None.
Proof.
  simpl. split; [reflexivity |].
  eexists. split; [reflexivity |]. split; [by eexists |]. repeat split.
Qed.

Lemma process_email_never_raises_witness :
  @process_email sample_builtins (failing_email_lib (ValueError "malformed message"))
     (Some default_engine) "Subject: hi"
  = ([], Returned (error_record (ValueError "malformed message"))).
Proof.
  apply (@process_email_never_raises sample_builtins
           (failing_email_lib (ValueError "malformed message"))).
  reflexivity.
Defined.

(** * Further properties *)

(** ** The node table *)

Section TableProperties.

Implicit Types (nodes : node_table).

Lemma nodes_lookup_store nodes k n k' :
  nodes_lookup (nodes_store nodes k n) k'
  = if String.eqb k k' then Some n else nodes_lookup nodes k'.
Proof.
  induction nodes as [| [k1 n1] rest IH]; simpl; [done |].
  destruct (String.eqb_spec k1 k) as [-> | Hne]; simpl.
  - by destruct (String.eqb k k').
  - rewrite IH. destruct (String.eqb_spec k1 k') as [-> | Hne']; [| done].
    by destruct (String.eqb_spec k k').
Qed.

Lemma nodes_store_keys nodes k n :
  (nodes_store nodes k n).*1 = if bool_decide (k ∈ nodes.*1) then nodes.*1
                               else (nodes.*1 ++ [k])%list.
Proof.
  induction nodes as [| [k1 n1] rest IH]; csimpl; [done |].
  destruct (String.eqb_spec k1 k) as [-> | Hne]; csimpl.
  - rewrite bool_decide_eq_true_2; [done | apply list_elem_of_here].
  - rewrite IH. destruct (bool_decide (k ∈ rest.*1)) eqn:Hin.
    + apply bool_decide_eq_true in Hin.
      rewrite bool_decide_eq_true_2; [done | by apply list_elem_of_further].
    + apply bool_decide_eq_false in Hin.
      rewrite bool_decide_eq_false_2; [done |].
      intros [? | ?]%elem_of_cons; congruence.
Qed.

Lemma nodes_store_ok nodes k n :
  node_id n = k → table_ok nodes → table_ok (nodes_store nodes k n).
Proof.
  intros Hid [Hnd Hall]. split.
  - rewrite nodes_store_keys. case_bool_decide; [done |].
    apply NoDup_app. split; [done |]. split; [| apply NoDup_singleton].
    intros x Hx ->%list_elem_of_singleton. done.
  - clear Hnd. induction nodes as [| [k1 n1] rest IH]; simpl.
    + by repeat constructor.
    + apply Forall_cons in Hall as [H1 Hrest].
      destruct (String.eqb k1 k); constructor; auto.
Qed.

Lemma build_nodes_ok descrs nodes :
  table_ok nodes → table_ok (build_nodes descrs nodes).
Proof.
  revert nodes. induction descrs as [| d ds IH]; intros nodes Hok; simpl; [done |].
  destruct (class_of_type (nd_type d)); [| by apply IH].
  apply IH. by apply nodes_store_ok.
Qed.

Lemma nodes_lookup_ok nodes k n :
  table_ok nodes → nodes_lookup nodes k = Some n → node_id n = k.
Proof.
  intros [_ Hall]. induction nodes as [| [k1 n1] rest IH]; simpl; [done |].
  apply Forall_cons in Hall as [H1 Hrest].
  destruct (String.eqb_spec k1 k) as [-> | Hne]; [| by apply IH].
  by intros [= <-].
Qed.

Lemma build_connections_ok conns nodes :
  table_ok nodes → table_ok (build_connections conns nodes).
Proof.
  revert nodes. induction conns as [| c cs IH]; intros nodes Hok; simpl; [done |].
  destruct (nodes_lookup nodes (cd_source c)) as [n |] eqn:Hn; [| by apply IH].
  apply IH. apply nodes_store_ok; [| done]. simpl. by eapply nodes_lookup_ok.
Qed.

Lemma nodes_lookup_elem_of nodes k n :
  NoDup nodes.*1 → (k, n) ∈ nodes → nodes_lookup nodes k = Some n.
Proof.
  induction nodes as [| [k1 n1] rest IH]; simpl; intros Hnd Hin.
  - by apply elem_of_nil in Hin.
  - apply NoDup_cons in Hnd as [Hk1 Hnd].
    apply elem_of_cons in Hin as [[= <- <-] | Hin].
    + by rewrite String.eqb_refl.
    + destruct (String.eqb_spec k1 k) as [-> | Hne]; [| by apply IH].
      destruct Hk1. apply list_elem_of_fmap. by exists (k, n).
Qed.

End TableProperties.

(** ** What [_build_workflow] builds *)

Section BuildCharacterisation.

Implicit Types (nodes : node_table).

(** X1: in the table built from any configuration no node id occurs twice,
    every node object sits under its own id, and looking an entry's key up
    gives that entry. *)
Theorem build_workflow_table_ok (cfg : workflow_config) :
  NoDup (_build_workflow cfg).*1 ∧
  (∀ k n, nodes_lookup (_build_workflow cfg) k = Some n → node_id n = k) ∧
  (∀ k n, (k, n) ∈ _build_workflow cfg → nodes_lookup (_build_workflow cfg) k = Some n).
Proof.
  assert (table_ok (_build_workflow cfg)) as Hok.
  { apply build_connections_ok, build_nodes_ok. split; [constructor | constructor]. }
  split; [apply Hok |]. split.
  - intros k n. by apply nodes_lookup_ok.
  - intros k n. apply nodes_lookup_elem_of, Hok.
Qed.

Lemma build_nodes_lookup descrs nodes k :
  nodes_lookup (build_nodes descrs nodes) k
  = match last_known_descr descrs k with
    | Some d => c ← class_of_type (nd_type d); Some (Node c k (nd_config d) [])
    | None => nodes_lookup nodes k
    end.
Proof.
  revert nodes. induction descrs as [| d ds IH]; intros nodes; simpl; [done |].
  destruct (class_of_type (nd_type d)) as [c |] eqn:Hc; rewrite IH;
    destruct (last_known_descr ds k) as [d' |]; try done.
  - rewrite nodes_lookup_store.
    destruct (String.eqb_spec (nd_id d) k) as [<- | Hne]; simpl; [| done].
    by rewrite Hc.
  - by rewrite andb_false_r.
Qed.

Lemma declared_connections_cons c conns k :
  declared_connections (c :: conns) k
  = if String.eqb (cd_source c) k
    then Connection (cd_target c) (cd_condition c) :: declared_connections conns k
    else declared_connections conns k.
Proof. unfold declared_connections. simpl. by destruct (String.eqb _ _). Qed.

Lemma build_connections_lookup conns nodes k :
  nodes_lookup (build_connections conns nodes) k
  = (λ n, Node (class_of n) (node_id n) (config n)
               (connections n ++ declared_connections conns k)%list)
      <$> nodes_lookup nodes k.
Proof.
  revert nodes. induction conns as [| c cs IH]; intros nodes; simpl.
  - destruct (nodes_lookup nodes k) as [[] |]; simpl; [| done].
    unfold declared_connections. simpl. by rewrite app_nil_r.
  - rewrite declared_connections_cons.
    destruct (nodes_lookup nodes (cd_source c)) as [src |] eqn:Hsrc; rewrite IH.
    + rewrite nodes_lookup_store.
      destruct (String.eqb_spec (cd_source c) k) as [<- | Hne]; [| done].
      rewrite Hsrc. simpl. by rewrite <- (assoc_L app).
    + destruct (String.eqb_spec (cd_source c) k) as [<- | Hne]; [| done].
      by rewrite Hsrc.
Qed.

(** X2: the graph can be read back from the configuration. The node found
    under an id comes from the last descriptor of that id whose type is
    [trigger], [filter] or [action]: it has that descriptor's class and
    configuration, and its connections are the declared connections of that
    source, in the order of the document. An id with no such descriptor is
    not in the graph, and connections declared for it are dropped. *)
Theorem build_workflow_lookup (cfg : workflow_config) (k : string) :
  nodes_lookup (_build_workflow cfg) k
  = (d ← last_known_descr (wc_nodes cfg) k;
     c ← class_of_type (nd_type d);
     Some (Node c k (nd_config d) (declared_connections (wc_connections cfg) k))).
Proof.
  unfold _build_workflow. rewrite build_connections_lookup, build_nodes_lookup.
  destruct (last_known_descr (wc_nodes cfg) k) as [d |]; simpl; [| done].
  by destruct (class_of_type (nd_type d)).
Qed.

End BuildCharacterisation.

Lemma build_workflow_table_ok_witness :
  ∃ n, nodes_lookup (_build_workflow cyclic_config) "mark" = Some n ∧ node_id n = "mark".
Proof.
  destruct (build_workflow_table_ok cyclic_config) as (_ & Hid & _).
  eexists. split; [reflexivity |]. apply Hid. reflexivity.
Defined.

(** ** What nodes write *)

Section FrameProperties.
Context `{PyBuiltins}.

Implicit Types (nodes : node_table) (data r : gmap string pyval).

Lemma FilterNode_execute_frame cfg data r k :
  FilterNode_execute cfg data = Ok r →
  k ≠ "filter_results" → k ≠ "filter_passed" → r !! k = data !! k.
Proof.
  unfold FilterNode_execute.
  destruct (py_iter _) as [conds |]; simpl; [| done].
  destruct (evaluate_all data conds) as [results |]; simpl; [| done].
  destruct (py_eq_str _ _); intros [= <-] H1 H2; by rewrite !lookup_insert_ne.
Qed.

Lemma ActionNode_execute_total cfg data : ∃ r, ActionNode_execute cfg data = Ok r.
Proof. unfold ActionNode_execute. repeat (destruct (py_eq_str _ _); [eauto |]). eauto. Qed.

Lemma ActionNode_execute_frame cfg data r k :
  ActionNode_execute cfg data = Ok r →
  k ∉ ["action"; "reject_reason"; "quarantine_folder"; "forward_to";
       "header_modifications"; "tags"] →
  r !! k = data !! k.
Proof.
  intros Hr Hk.
  assert (k ≠ "action" ∧ k ≠ "reject_reason" ∧ k ≠ "quarantine_folder" ∧
          k ≠ "forward_to" ∧ k ≠ "header_modifications" ∧ k ≠ "tags")
    as (? & ? & ? & ? & ? & ?) by set_solver.
  revert Hr. unfold ActionNode_execute.
  repeat (destruct (py_eq_str _ _);
          [intros [= <-]; by rewrite ?lookup_insert_ne by done |]).
  by intros [= <-].
Qed.

Lemma insert_keeps_keys data k v k' :
  is_Some (data !! k') → is_Some (<[k := v]> data !! k').
Proof.
  intros Hk'. destruct (decide (k = k')) as [-> | Hne].
  - rewrite lookup_insert_eq. by eexists.
  - by rewrite lookup_insert_ne.
Qed.

Lemma node_execute_keeps_keys (n : WorkflowNode) data r k :
  node_execute n data = Ok r → is_Some (data !! k) → is_Some (r !! k).
Proof.
  unfold node_execute. destruct (class_of n).
  - by intros [= <-].
  - unfold FilterNode_execute.
    destruct (py_iter _) as [conds |]; simpl; [| done].
    destruct (evaluate_all data conds) as [results |]; simpl; [| done].
    destruct (py_eq_str _ _); intros [= <-] Hk; by do 2 apply insert_keeps_keys.
  - unfold ActionNode_execute.
    repeat (destruct (py_eq_str _ _);
            [intros [= <-] Hk; by repeat apply insert_keeps_keys |]).
    by intros [= <-].
Qed.

Lemma node_execute_frame (n : WorkflowNode) data r k :
  node_execute n data = Ok r → k ∉ node_written_keys → r !! k = data !! k.
Proof.
  unfold node_execute, node_written_keys. intros Hr Hk. destruct (class_of n).
  - by injection Hr as <-.
  - eapply FilterNode_execute_frame; [done | set_solver ..].
  - eapply ActionNode_execute_frame; [done | set_solver].
Qed.

(** X3: a node never removes an attribute, and each class writes only its
    own: a Trigger node returns the record it was given; a Filter node
    changes nothing but [filter_results] and [filter_passed], so never the
    [action]; an Action node changes nothing but [action] and the payload
    attributes, so never the verdict [filter_passed]. *)
Theorem node_execute_writes_own_keys (n : WorkflowNode) (data r : gmap string pyval) :
  node_execute n data = Ok r →
  (∀ k, is_Some (data !! k) → is_Some (r !! k)) ∧
  (class_of n = TriggerNode → r = data) ∧
  (class_of n = FilterNode →
     ∀ k, k ≠ "filter_results" → k ≠ "filter_passed" → r !! k = data !! k) ∧
  (class_of n = ActionNode →
     ∀ k, k ∉ ["action"; "reject_reason"; "quarantine_folder"; "forward_to";
               "header_modifications"; "tags"] → r !! k = data !! k).
Proof.
  intros Hr. split; [intros k; by eapply node_execute_keeps_keys |].
  unfold node_execute in Hr.
  split; [| split]; intros Hc; rewrite Hc in Hr.
  - by injection Hr as <-.
  - intros k. by eapply FilterNode_execute_frame.
  - intros k. by eapply ActionNode_execute_frame.
Qed.

Lemma follow_connections_inv (P : gmap string pyval → Prop) nodes descend conns data log r :
  (∀ n d log' r', P d → descend n d = (log', Returned r') → P r') →
  P data →
  follow_connections nodes descend conns data = (log, Returned r) → P r.
Proof.
  intros Hd. revert data log. induction conns as [| c cs IH]; intros data log HP; simpl.
  - by intros [= _ <-].
  - destruct (_should_follow_connection data (condition c)); [| by eapply IH].
    destruct (nodes_lookup nodes (target c)) as [tn |].
    + unfold mbind, run_bind.
      destruct (descend tn data) as [log1 [r1 | e |]] eqn:Hdesc; try done.
      destruct (follow_connections nodes descend cs r1) as [log2 o] eqn:Hrest.
      intros [= _ ->]. eapply IH; [| done]. by eapply Hd.
    + unfold mbind, run_bind. simpl.
      destruct (follow_connections nodes descend cs data) as [log2 o] eqn:Hrest.
      intros [= _ ->]. by eapply IH.
Qed.

Lemma execute_node_inv (P : gmap string pyval → gmap string pyval → Prop)
    (fuel : nat) nodes node data visited log r :
  (∀ d, P d d) →
  (∀ n d1 d2 d3, P d1 d2 → node_execute n d2 = Ok d3 → P d1 d3) →
  _execute_node fuel nodes node data visited = (log, Returned r) → P data r.
Proof.
  intros Hrefl Hstep.
  assert (∀ d0 d, P d0 d →
            _execute_node fuel nodes node d visited = (log, Returned r) → P d0 r) as Hgen;
    [| by apply Hgen].
  revert node visited log r.
  induction fuel as [| fuel IH]; intros node visited log r d0 d HP; simpl; [done |].
  destruct (decide (node_id node ∈ visited)) as [Hseen | Hfresh];
    [by intros [= _ <-] |].
  destruct (node_execute node d) as [result | e] eqn:Hexec; [| done].
  unfold mbind, run_bind. simpl.
  destruct (follow_connections _ _ _ _) as [log' o] eqn:Hfollow.
  intros [= _ ->].
  eapply (follow_connections_inv (P d0)); [| | exact Hfollow].
  - intros tn d' log1 r1 HP' Hdesc. eapply IH; [exact HP' | exact Hdesc].
  - by eapply Hstep.
Qed.

(** X4: a traversal never removes an attribute from the record, and leaves
    every attribute that no node writes, the extracted message fields among
    them, as it found it; the same holds for [execute] on a graph that has a
    trigger. *)
Theorem traversal_keeps_message_fields (fuel : nat) (nodes : node_table)
    (node : WorkflowNode) (data r : gmap string pyval) (visited : gset string)
    (log : list event) :
  (_execute_node fuel nodes node data visited = (log, Returned r) →
     (∀ k, is_Some (data !! k) → is_Some (r !! k)) ∧
     (∀ k, k ∉ node_written_keys → r !! k = data !! k)) ∧
  (is_Some (find_trigger nodes) → execute nodes data = (log, Returned r) →
     (∀ k, is_Some (data !! k) → is_Some (r !! k)) ∧
     (∀ k, k ∉ node_written_keys → r !! k = data !! k) ∧
     (∀ k, k ∈ extracted_fields → r !! k = data !! k)).
Proof.
  assert (∀ f n d v l r',
            _execute_node f nodes n d v = (l, Returned r') →
            (∀ k, is_Some (d !! k) → is_Some (r' !! k)) ∧
            (∀ k, k ∉ node_written_keys → r' !! k = d !! k)) as Hnode.
  { intros f n d v l r' Hrun. split.
    - intros k. revert Hrun.
      apply (execute_node_inv (λ d1 d2, is_Some (d1 !! k) → is_Some (d2 !! k))); [done |].
      intros n' d1 d2 d3 H12 H23 H1. eapply node_execute_keeps_keys; eauto.
    - intros k Hk. revert Hrun.
      apply (execute_node_inv (λ d1 d2, d2 !! k = d1 !! k)); [done |].
      intros n' d1 d2 d3 H12 H23. rewrite <- H12. by eapply node_execute_frame. }
  split; [apply Hnode |].
  intros [t Ht]. unfold execute, execute_fuel. rewrite Ht. intros Hrun.
  destruct (Hnode _ _ _ _ _ _ Hrun) as [Hkeep Hframe].
  split; [done |]. split; [done |].
  intros k Hk. apply Hframe. unfold extracted_fields in Hk. unfold node_written_keys.
  repeat (apply elem_of_cons in Hk as [-> | Hk]; [set_solver |]).
  by apply elem_of_nil in Hk.
Qed.

End FrameProperties.

Lemma node_execute_writes_own_keys_witness :
  is_Some ((<["reject_reason" := VStr "Message identified as spam"]>
              (<["action" := VStr "reject"]> spam_record)) !! "subject").
Proof.
  destruct (@node_execute_writes_own_keys sample_builtins
              (Node ActionNode "action1" action1_config []) spam_record
              (<["reject_reason" := VStr "Message identified as spam"]>
                 (<["action" := VStr "reject"]> spam_record))) as [Hkeep _].
  - reflexivity.
  - apply Hkeep. by eexists.
Defined.

Lemma traversal_keeps_message_fields_witness :
  (<["action" := VStr "accept"]> hello_record) !! "subject" = hello_record !! "subject".
Proof.
  destruct (@traversal_keeps_message_fields sample_builtins 1 []
              (Node ActionNode "action2" action2_config []) hello_record
              (<["action" := VStr "accept"]> hello_record) ∅ [Executed "action2"])
    as [Hnode _].
  destruct Hnode as [_ Hframe]; [reflexivity |].
  apply Hframe. unfold node_written_keys. intros Hin.
  repeat (apply elem_of_cons in Hin as [Hin | Hin]; [discriminate Hin |]).
  by apply elem_of_nil in Hin.
Defined.

(** ** Action nodes *)

Section ActionPayload.

(** X5: an Action node of a recognised type returns a record whose [action]
    is that type and whose payload attribute holds the configured value, or
    the default when the configuration has none: the standard reason for
    [reject], [/var/mail/quarantine] for [quarantine], [None] for
    [forward], an empty mapping for [modify_headers], an empty list for
    [tag]; [accept] has no payload. Every other attribute is unchanged. *)
Theorem ActionNode_sets_action (cfg data : gmap string pyval) (ty : string) :
  ty ∈ recognised_actions →
  dict_get cfg "action_type" = VStr ty →
  ∃ r, ActionNode_execute cfg data = Ok r ∧
       r !! "action" = Some (VStr ty) ∧
       match action_payload cfg ty with
       | Some (key, v) =>
           r !! key = Some v ∧
           ∀ k, k ≠ "action" → k ≠ key → r !! k = data !! k
       | None => ∀ k, k ≠ "action" → r !! k = data !! k
       end.
Proof.
  intros Hty Hcfg. unfold recognised_actions in Hty.
  unfold ActionNode_execute. rewrite Hcfg.
  repeat (apply elem_of_cons in Hty as [-> | Hty]);
    [.. | by apply elem_of_nil in Hty]; simpl; eexists; (split; [reflexivity |]).
  - split; [by rewrite lookup_insert_ne, lookup_insert_eq |].
    split; [apply lookup_insert_eq |].
    intros k ? ?. by rewrite !lookup_insert_ne.
  - split; [by rewrite lookup_insert_ne, lookup_insert_eq |].
    split; [apply lookup_insert_eq |].
    intros k ? ?. by rewrite !lookup_insert_ne.
  - split; [by rewrite lookup_insert_ne, lookup_insert_eq |].
    split; [apply lookup_insert_eq |].
    intros k ? ?. by rewrite !lookup_insert_ne.
  - split; [by rewrite lookup_insert_ne, lookup_insert_eq |].
    split; [apply lookup_insert_eq |].
    intros k ? ?. by rewrite !lookup_insert_ne.
  - split; [apply lookup_insert_eq |].
    intros k ?. by rewrite lookup_insert_ne.
  - split; [by rewrite lookup_insert_ne, lookup_insert_eq |].
    split; [apply lookup_insert_eq |].
    intros k ? ?. by rewrite !lookup_insert_ne.
Qed.

End ActionPayload.

Lemma ActionNode_sets_action_witness :
  ∃ r, ActionNode_execute
         (list_to_map [("action_type", VStr "quarantine")]) hello_record = Ok r ∧
       r !! "action" = Some (VStr "quarantine") ∧
       r !! "quarantine_folder" = Some (VStr "/var/mail/quarantine").
Proof.
  destruct (ActionNode_sets_action
              (list_to_map [("action_type", VStr "quarantine")]) hello_record "quarantine")
    as (r & Hr & Haction & Hpayload & _).
  - unfold recognised_actions. apply list_elem_of_further, list_elem_of_here.
  - reflexivity.
  - exists r. split; [exact Hr |]. split; [exact Haction | exact Hpayload].
Defined.

(** ** The string operators *)

Section StringLemmas.

Lemma prefix_spec p s : String.prefix p s = true ↔ ∃ b, s = p ++ b.
Proof.
  revert s. induction p as [| c p IH]; intros s; simpl.
  - split; [intros _; by exists s | by destruct s].
  - destruct s as [| c' s]; simpl.
    + split; [done | by intros [b [=]]].
    + destruct (ascii_dec c c') as [-> | Hne].
      * rewrite IH. split; intros [b Hb]; exists b.
        -- simpl. by rewrite Hb.
        -- simpl in Hb. by injection Hb.
      * split; [done | intros [b Hb]]. simpl in Hb. by injection Hb.
Qed.

Lemma str_contains_spec needle hay :
  str_contains needle hay = true ↔ ∃ a b, hay = a ++ needle ++ b.
Proof.
  induction hay as [| c hay IH]; cbn [str_contains].
  - rewrite orb_false_r, prefix_spec. split.
    + intros [b Hb]. by exists "", b.
    + intros (a & b & Hab). destruct a; [by exists b | done].
  - rewrite orb_true_iff, prefix_spec, IH. split.
    + intros [[b Hb] | (a & b & Hab)].
      * by exists "", b.
      * exists (String c a), b. simpl. by rewrite Hab.
    + intros (a & b & Hab). destruct a as [| c' a]; simpl in Hab.
      * left. by exists b.
      * right. exists a, b. by injection Hab.
Qed.

Lemma str_length_app a b : String.length (a ++ b) = (String.length a + String.length b)%nat.
Proof. induction a as [| c a IH]; simpl; [done | by rewrite IH]. Qed.

Lemma substring_all s : String.substring 0 (String.length s) s = s.
Proof. induction s as [| c s IH]; simpl; [done | by rewrite IH]. Qed.

Lemma substring_skip a p :
  String.substring (String.length a) (String.length p) (a ++ p) = p.
Proof. induction a as [| c a IH]; simpl; [apply substring_all | done]. Qed.

Lemma substring_split (n : nat) s :
  (n ≤ String.length s)%nat →
  s = String.substring 0 n s ++ String.substring n (String.length s - n) s.
Proof.
  revert s. induction n as [| n IH]; intros s Hn.
  - rewrite Nat.sub_0_r, substring_all. by destruct s.
  - destruct s as [| c s]; simpl in *; [lia |].
    change (String c s = String c (String.substring 0 n s
                                    ++ String.substring n (String.length s - n) s)).
    f_equal. apply IH. lia.
Qed.

Lemma str_endswith_spec s p : str_endswith s p = true ↔ ∃ a, s = a ++ p.
Proof.
  unfold str_endswith. rewrite andb_true_iff, Nat.leb_le, String.eqb_eq. split.
  - intros [Hlen Hsub].
    exists (String.substring 0 (String.length s - String.length p) s).
    rewrite (substring_split (String.length s - String.length p) s) at 1 by lia.
    replace (String.length s - (String.length s - String.length p))%nat
      with (String.length p) by lia.
    by rewrite Hsub.
  - intros [a ->]. rewrite str_length_app. split; [lia |].
    replace (String.length a + String.length p - String.length p)%nat
      with (String.length a) by lia.
    apply substring_skip.
Qed.

Lemma str_app_nil_r s : s ++ "" = s.
Proof.
  induction s as [| c s IH]; [done |].
  change (String c (s ++ "") = String c s). by rewrite IH.
Qed.



End StringLemmas.

Section StringOperators.
Context `{PyBuiltins}.


(** X7: an empty comparison value matches every field under [contains],
    [starts_with] and [ends_with], and under [equals] exactly the empty
    field; whenever [equals] holds, so do the other three; whenever
    [starts_with] or [ends_with] holds, so does [contains]. *)
Theorem string_operators_order (fv v : string) :
  _evaluate_condition fv (VStr "contains") (VStr "") = true ∧
  _evaluate_condition fv (VStr "starts_with") (VStr "") = true ∧
  _evaluate_condition fv (VStr "ends_with") (VStr "") = true ∧
  (_evaluate_condition fv (VStr "equals") (VStr "") = true ↔ fv = "") ∧
  (_evaluate_condition fv (VStr "equals") (VStr v) = true →
     _evaluate_condition fv (VStr "starts_with") (VStr v) = true ∧
     _evaluate_condition fv (VStr "ends_with") (VStr v) = true) ∧
  (_evaluate_condition fv (VStr "starts_with") (VStr v) = true →
     _evaluate_condition fv (VStr "contains") (VStr v) = true) ∧
  (_evaluate_condition fv (VStr "ends_with") (VStr v) = true →
     _evaluate_condition fv (VStr "contains") (VStr v) = true).
Proof.
  change (_evaluate_condition fv (VStr "contains") (VStr ""))
    with (str_contains "" (str_lower fv)).
  change (_evaluate_condition fv (VStr "starts_with") (VStr ""))
    with (str_startswith (str_lower fv) "").
  change (_evaluate_condition fv (VStr "ends_with") (VStr ""))
    with (str_endswith (str_lower fv) "").
  change (_evaluate_condition fv (VStr "equals") (VStr ""))
    with (String.eqb (str_lower fv) "").
  change (_evaluate_condition fv (VStr "equals") (VStr v))
    with (String.eqb (str_lower fv) (str_lower v)).
  change (_evaluate_condition fv (VStr "contains") (VStr v))
    with (str_contains (str_lower v) (str_lower fv)).
  change (_evaluate_condition fv (VStr "starts_with") (VStr v))
    with (str_startswith (str_lower fv) (str_lower v)).
  change (_evaluate_condition fv (VStr "ends_with") (VStr v))
    with (str_endswith (str_lower fv) (str_lower v)).
  unfold str_startswith.
  rewrite !str_contains_spec, !prefix_spec, !str_endswith_spec, !String.eqb_eq.
  split; [by exists "", (str_lower fv) |].
  split; [by exists (str_lower fv) |].
  split; [exists (str_lower fv); by rewrite str_app_nil_r |].
  split; [by destruct fv |].
  split; [| split].
  - intros ->. split; [exists ""; by rewrite str_app_nil_r | by exists ""].
  - intros [b ->]. by exists "", b.
  - intros [a ->]. exists a, "". by rewrite str_app_nil_r.
Qed.


(** X9: on a string comparison value [not_equals] and [not_contains] are the
    negations of [equals] and [contains]; on any other comparison value all
    four are false, so a negated operator does not hold where its positive
    form fails for a fault. *)
Theorem negated_operators (fv : string) (value : pyval) :
  (∀ v, value = VStr v →
     _evaluate_condition fv (VStr "not_equals") value
       = negb (_evaluate_condition fv (VStr "equals") value) ∧
     _evaluate_condition fv (VStr "not_contains") value
       = negb (_evaluate_condition fv (VStr "contains") value)) ∧
  ((∀ v, value ≠ VStr v) →
     _evaluate_condition fv (VStr "equals") value = false ∧
     _evaluate_condition fv (VStr "not_equals") value = false ∧
     _evaluate_condition fv (VStr "contains") value = false ∧
     _evaluate_condition fv (VStr "not_contains") value = false).
Proof.
  split.
  - intros v ->. done.
  - intros Hv. destruct value; try done. by destruct (Hv s).
Qed.

End StringOperators.

Lemma string_operators_order_witness :
  @_evaluate_condition sample_builtins "Re: Invoice" (VStr "contains") (VStr "re:") = true.
Proof.
  destruct (@string_operators_order sample_builtins "Re: Invoice" "re:")
    as (_ & _ & _ & _ & _ & Hstarts & _).
  apply Hstarts. reflexivity.
Defined.


Lemma negated_operators_witness :
  @_evaluate_condition sample_builtins "12" (VStr "not_equals") (VInt 12) = false.
Proof.
  destruct (@negated_operators sample_builtins "12" (VInt 12)) as [_ Hfault].
  apply Hfault. intros v. discriminate.
Defined.

(** ** Field values *)

Section FieldValues.
Context `{PyBuiltins}.

(** X10: [sender] and [recipient] read the attributes [from] and [to]; a
    name outside the alias table reads the attribute of that name; an
    attribute the record lacks reads as the empty string, a string attribute
    as itself, an integer one (such as [size]) as its decimal digits; and a
    condition with no [field] entry is evaluated on the empty string. The
    attribute read for a name [f] is [default f (field_map !! f)]. *)
Theorem get_field_value_reads (data : gmap string pyval) (f : string) :
  _get_field_value data (VStr "sender") = _get_field_value data (VStr "from") ∧
  _get_field_value data (VStr "recipient") = _get_field_value data (VStr "to") ∧
  (field_map !! f = None → default f (field_map !! f) = f) ∧
  (data !! default f (field_map !! f) = None → _get_field_value data (VStr f) = Ok "") ∧
  (∀ s, data !! default f (field_map !! f) = Some (VStr s) →
        _get_field_value data (VStr f) = Ok s) ∧
  (∀ n, data !! default f (field_map !! f) = Some (VInt n) →
        _get_field_value data (VStr f) = Ok (pretty n)) ∧
  (∀ d, d !! "field" = None →
        ∃ r, evaluate_one data (VDict d) = Ok r ∧
             fr_result r = _evaluate_condition "" (dict_get d "operator") (dict_get d "value")).
Proof.
  split; [reflexivity |]. split; [reflexivity |].
  split; [by intros -> |].
  unfold _get_field_value, dict_get_or.
  split; [by intros -> |]. split; [by intros s -> |]. split; [by intros n -> |].
  intros d Hd. unfold evaluate_one. simpl.
    assert (dict_get d "field" = VNone) as -> by (unfold dict_get; by rewrite Hd).
  simpl. eexists. split; [reflexivity | done].
Qed.

End FieldValues.

Lemma get_field_value_reads_witness :
  @_get_field_value sample_builtins hello_record (VStr "sender") = Ok "a@b.com".
Proof.
  destruct (@get_field_value_reads sample_builtins hello_record "sender")
    as (_ & _ & _ & _ & Hstr & _).
  apply Hstr. reflexivity.
Defined.

(** ** Extraction *)

Section Extraction.
Context `{PyBuiltins} `{EmailLib}.

Lemma str_app_assoc a b c : (a ++ b) ++ c = a ++ (b ++ c).
Proof.
  induction a as [| x a IH]; [done |].
  change (String x ((a ++ b) ++ c) = String x (a ++ (b ++ c))). by rewrite IH.
Qed.

Lemma extract_parts_texts parts described body :
  Forall2 (λ part d, msg_get_content_type part = Ok d.1 ∧
                     (d.1 = "text/plain" → msg_get_payload_decoded part = Ok (Some d.2)))
          parts described →
  extract_parts parts body = Ok (body ++ str_join (plain_texts described)).
Proof.
  intros Hall. revert body.
  induction Hall as [| part d parts described [Hct Hpl] _ IH]; intros body; simpl.
  - by rewrite str_app_nil_r.
  - rewrite Hct. simpl. unfold plain_texts. simpl.
    destruct (String.eqb_spec d.1 "text/plain") as [Heq | Hne].
    + unfold decoded_payload. rewrite (Hpl Heq). simpl.
      rewrite IH. by rewrite str_app_assoc.
    + apply IH.
Qed.

(** X11: when the library calls succeed, the body extracted from a multipart
    message is the concatenation, in walk order, of the decoded payloads of
    its [text/plain] parts, the empty string if there is none; the body of a
    single-part message is its decoded payload if its type is [text/plain]
    and the empty string otherwise. *)
Theorem extract_body_text (msg : message) :
  (∀ parts described,
     msg_is_multipart msg = Ok true →
     msg_walk msg = Ok parts →
     Forall2 (λ part d, msg_get_content_type part = Ok d.1 ∧
                        (d.1 = "text/plain" → msg_get_payload_decoded part = Ok (Some d.2)))
             parts described →
     _extract_body msg = Ok (str_join (plain_texts described))) ∧
  (∀ ct, msg_is_multipart msg = Ok false → msg_get_content_type msg = Ok ct →
         ct ≠ "text/plain" → _extract_body msg = Ok "") ∧
  (∀ b, msg_is_multipart msg = Ok false → msg_get_content_type msg = Ok "text/plain" →
        msg_get_payload_decoded msg = Ok (Some b) →
        _extract_body msg = Ok (bytes_decode_ignore b)).
Proof.
  split; [| split].
  - intros parts described Hmp Hwalk Hparts. unfold _extract_body.
    rewrite Hmp. simpl. rewrite Hwalk. simpl.
    by rewrite (extract_parts_texts _ _ _ Hparts).
  - intros ct Hmp Hct Hne. unfold _extract_body. rewrite Hmp. simpl. rewrite Hct. simpl.
    by destruct (String.eqb_spec ct "text/plain").
  - intros b Hmp Hct Hpl. unfold _extract_body, decoded_payload.
    rewrite Hmp. simpl. rewrite Hct. simpl. by rewrite Hpl.
Qed.

Lemma bind_ok {A B} (m : exc A) (k : A → exc B) (b : B) :
  m ≫= k = Ok b → ∃ a, m = Ok a ∧ k a = Ok b.
Proof. destruct m as [a | e]; simpl; [eauto | done]. Qed.

(** X12: a record that extraction returns has exactly the nine message
    attributes; [size] is the length of the raw text, [from], [to],
    [subject], [date] and [message_id] are what the parsed message gives for
    the headers of those names, [body] is the extracted body, and
    [timestamp] the time of the call. *)
Theorem extract_email_data_shape (email_content : string) (d : gmap string pyval) :
  extract_email_data email_content = Ok d →
  (∀ k, is_Some (d !! k) ↔ k ∈ extracted_fields) ∧
  d !! "size" = Some (VInt (Z.of_nat (String.length email_content))) ∧
  d !! "timestamp" = Some (VStr now_isoformat) ∧
  ∃ msg body,
    message_from_string email_content = Ok msg ∧
    msg_get msg "From" = Ok (dict_get d "from") ∧
    msg_get msg "To" = Ok (dict_get d "to") ∧
    msg_get msg "Subject" = Ok (dict_get d "subject") ∧
    msg_get msg "Date" = Ok (dict_get d "date") ∧
    msg_get msg "Message-ID" = Ok (dict_get d "message_id") ∧
    _extract_body msg = Ok body ∧ d !! "body" = Some (VStr body).
Proof.
  unfold extract_email_data.
  intros (msg & Hmsg & H1)%bind_ok. apply bind_ok in H1 as (from & Hfrom & H1).
  apply bind_ok in H1 as (to & Hto & H1). apply bind_ok in H1 as (subject & Hsubject & H1).
  apply bind_ok in H1 as (date & Hdate & H1). apply bind_ok in H1 as (mid & Hmid & H1).
  apply bind_ok in H1 as (body & Hbody & H1). apply bind_ok in H1 as (headers & Hheaders & H1).
  injection H1 as <-.
  split; [| split; [reflexivity | split; [reflexivity |]]].
  - intros k. unfold extracted_fields. split.
    + intros Hk.
      destruct (decide (k ∈ ["from"; "to"; "subject"; "date"; "message_id"; "body";
                             "size"; "headers"; "timestamp"])) as [| Hnot]; [done |].
      exfalso. revert Hk. simpl. rewrite !lookup_insert_ne by set_solver.
      rewrite lookup_empty. by intros [].
    + intros Hk.
      repeat (apply elem_of_cons in Hk as [-> | Hk]; [by eexists |]).
      by apply elem_of_nil in Hk.
  - exists msg, body. by repeat split.
Qed.

End Extraction.

Lemma extract_body_text_witness :
  @_extract_body multipart_lib
     [("multipart/mixed", None); ("text/plain", Some "Hello ");
      ("text/html", Some "<p>Hello</p>"); ("text/plain", Some "world")]
  = Ok "Hello world".
Proof.
  destruct (@extract_body_text multipart_lib
              [("multipart/mixed", None); ("text/plain", Some "Hello ");
               ("text/html", Some "<p>Hello</p>"); ("text/plain", Some "world")])
    as [Hmulti _].
  eapply (Hmulti _ [("multipart/mixed", ""); ("text/plain", "Hello ");
                   ("text/html", "<p>Hello</p>"); ("text/plain", "world")]);
    [reflexivity | reflexivity |].
  repeat constructor; simpl; intros; discriminate.
Defined.

Lemma extract_email_data_shape_witness :
  ∃ d, @extract_email_data headerless_email_lib "hello" = Ok d ∧
       d !! "size" = Some (VInt 5).
Proof.
  eexists. split; [reflexivity |].
  eapply (@extract_email_data_shape headerless_email_lib "hello"). reflexivity.
Defined.

(** ** Processing a message *)

Section Processing.
Context `{PyBuiltins} `{EmailLib}.

Lemma process_email_try_ok engine content d :
  extract_email_data content = Ok d →
  process_email_try engine content
  = match engine with
    | Some nodes => execute nodes d
    | None => ([], Returned no_engine_record)
    end.
Proof.
  intros Hd. unfold process_email_try. rewrite Hd. unfold lift_exc.
  apply run_ret_bind.
Qed.

(** X13: once extraction has produced a record, [process_email] without an
    engine returns [{action: accept, error: No workflow engine}]; with an
    engine it returns what the workflow returns on that record, log
    included, and the handler's record if the workflow raises. *)
Theorem process_email_runs_workflow (content : string) (d : gmap string pyval) :
  extract_email_data content = Ok d →
  process_email None content = ([], Returned no_engine_record) ∧
  no_engine_record !! "action" = Some (VStr "accept") ∧
  (∀ nodes log r, execute nodes d = (log, Returned r) →
                  process_email (Some nodes) content = (log, Returned r)) ∧
  (∀ nodes log e, execute nodes d = (log, Raised e) →
                  process_email (Some nodes) content = (log, Returned (error_record e))).
Proof.
  intros Hd. unfold process_email.
  split; [by rewrite (process_email_try_ok None _ _ Hd) |].
  split; [reflexivity |].
  split; intros nodes log ? Hrun; by rewrite (process_email_try_ok (Some nodes) _ _ Hd), Hrun.
Qed.

(** X14: under the default configuration a message whose extracted subject
    and sender are strings is rejected iff the subject contains [[SPAM]] or
    the sender contains [noreply@spam], letter case aside, and is accepted
    otherwise. *)
Theorem default_configuration_verdict (content s f : string) (d : gmap string pyval) :
  extract_email_data content = Ok d →
  d !! "subject" = Some (VStr s) → d !! "from" = Some (VStr f) →
  final_action (process_email (Some default_engine) content)
  = Some (VStr (if str_contains "[spam]" (str_lower s)
                   || str_contains "noreply@spam" (str_lower f)
                then "reject" else "accept")).
Proof.
  intros Hd Hs Hf.
  destruct (default_engine_run d s Hs) as (r & Hrun & Haction).
  unfold process_email. rewrite (process_email_try_ok _ _ _ Hd), Hrun.
  unfold final_action. simpl. rewrite Haction.
  unfold default_verdict, dict_get_or. by rewrite Hf.
Qed.

End Processing.

Lemma process_email_runs_workflow_witness :
  @process_email sample_builtins headerless_email_lib None "hello"
  = ([], Returned no_engine_record).
Proof.
  eapply (@process_email_runs_workflow sample_builtins headerless_email_lib "hello").
  reflexivity.
Defined.

Lemma default_configuration_verdict_witness :
  final_action (@process_email sample_builtins (subject_only_lib "Win a prize [Spam]")
                  (Some default_engine) "Subject: Win a prize [Spam]")
  = Some (VStr "reject").
Proof.
  eapply (@default_configuration_verdict sample_builtins
            (subject_only_lib "Win a prize [Spam]") _ "Win a prize [Spam]" "");
    reflexivity.
Defined.

(** ** Connections that lead nowhere *)

Section DeadConnections.
Context `{PyBuiltins}.

Lemma run_bind_snd_ext {A B} (m : run A) (k k' : A → run B) :
  (∀ a, (k a).2 = (k' a).2) → (m ≫= k).2 = (m ≫= k').2.
Proof.
  intros Hk. unfold mbind, run_bind. destruct m as [log [a | e |]]; try done.
  specialize (Hk a). destruct (k a), (k' a). done.
Qed.

Lemma follow_connections_skip_dead nodes descend conns data :
  (follow_connections nodes descend conns data).2
  = (follow_connections nodes descend
       (List.filter (λ c, negb (dead_connection nodes c)) conns) data).2.
Proof.
  revert data. induction conns as [| c cs IH]; intros data; [done |].
  cbn [List.filter follow_connections]. unfold dead_connection at 1.
  destruct (nodes_lookup nodes (target c)) as [tn |] eqn:Hlook.
  - destruct (condition c) as [l |] eqn:Hcond.
    + destruct (String.eqb_spec l "") as [-> | Hne0]; cbn [negb andb].
      * cbn [follow_connections]. rewrite Hcond, Hlook.
        destruct (_should_follow_connection data (Some "")); [| apply IH].
        apply run_bind_snd_ext. intros r'. apply IH.
      * destruct (String.eqb_spec l "true") as [-> | Hne1]; cbn [negb andb].
        { cbn [follow_connections]. rewrite Hcond, Hlook.
          destruct (_should_follow_connection data (Some "true")); [| apply IH].
          apply run_bind_snd_ext. intros r'. apply IH. }
        destruct (String.eqb_spec l "false") as [-> | Hne2]; cbn [negb andb].
        { cbn [follow_connections]. rewrite Hcond, Hlook.
          destruct (_should_follow_connection data (Some "false")); [| apply IH].
          apply run_bind_snd_ext. intros r'. apply IH. }
        rewrite should_follow_other by done. apply IH.
    + cbn [negb]. cbn [follow_connections]. rewrite Hcond, Hlook.
      destruct (_should_follow_connection data None); [| apply IH].
      apply run_bind_snd_ext. intros r'. apply IH.
  - cbn [negb]. destruct (_should_follow_connection data (condition c)); [| apply IH].
    rewrite <- IH. unfold mbind, run_bind. simpl.
    by destruct (follow_connections nodes descend cs data).
Qed.

(** X15: connections that lead nowhere do not change the outcome. Dropping
    from a node the connections whose target is not in the graph and those
    whose label is a non-empty string other than [true] and [false] leaves
    the outcome of the node's traversal, its record or exception, the same;
    only warnings disappear from the log. *)
Theorem dead_connections_do_not_matter (fuel : nat) (nodes : node_table)
    (node : WorkflowNode) (data : gmap string pyval) (visited : gset string) :
  (_execute_node fuel nodes node data visited).2
  = (_execute_node fuel nodes
       (Node (class_of node) (node_id node) (config node)
             (List.filter (λ c, negb (dead_connection nodes c)) (connections node)))
       data visited).2.
Proof.
  destruct fuel as [| fuel]; [done |]. simpl.
  destruct (decide (node_id node ∈ visited)); [done |].
  change (node_execute (Node (class_of node) (node_id node) (config node) _) data)
    with (node_execute node data).
  destruct (node_execute node data) as [result | e]; [| done].
  pose proof (follow_connections_skip_dead nodes
    (λ tn r, _execute_node fuel nodes tn r ({[node_id node]} ∪ visited))
    (connections node) result) as Hskip.
  unfold mbind, run_bind. simpl.
  destruct (follow_connections _ _ (connections node) _),
           (follow_connections _ _ (List.filter _ _) _). done.
Qed.

End DeadConnections.

(** ** main *)

Section MainProperties.
Context `{PyBuiltins} `{EmailLib} `{OsEnv}.

Implicit Types (result : gmap string pyval).




(** X17: the quarantine branch. With a string folder and an operating system
    that lets the directory be made and the file be written, the message is
    written unchanged to [email_<time>.eml] in that folder, nothing is
    printed and the status is 1; the folder is [/var/mail/quarantine] when
    the record names none. If the folder is not a string, or making the
    directory or writing the file fails, the message is printed and the
    status is 0. *)
Theorem main_quarantine (content : string) (result : gmap string pyval) :
  dict_get_or result "action" (VStr "accept") = VStr "quarantine" →
  (∀ folder,
     dict_get_or result "quarantine_folder" (VStr "/var/mail/quarantine") = VStr folder →
     os_makedirs folder = Ok tt →
     os_write_file (os_path_join folder ("email_" ++ pretty time_now ++ ".eml")) content
       = Ok tt →
     handle_result content result
     = MainEffect None
         (Some (os_path_join folder ("email_" ++ pretty time_now ++ ".eml"), content)) 1) ∧
  (result !! "quarantine_folder" = None →
     dict_get_or result "quarantine_folder" (VStr "/var/mail/quarantine")
       = VStr "/var/mail/quarantine") ∧
  ((∀ folder, dict_get_or result "quarantine_folder" (VStr "/var/mail/quarantine")
              ≠ VStr folder) →
     handle_result content result = pass_through content) ∧
  (∀ folder e,
     dict_get_or result "quarantine_folder" (VStr "/var/mail/quarantine") = VStr folder →
     os_makedirs folder = Raise e ∨
     os_write_file (os_path_join folder ("email_" ++ pretty time_now ++ ".eml")) content
       = Raise e →
     handle_result content result = pass_through content).
Proof.
  intros Haction. unfold handle_result. rewrite Haction. simpl. unfold quarantine.
  split; [| split; [| split]].
  - intros folder -> Hmk Hwr. rewrite Hmk. simpl. by rewrite Hwr.
  - intros Hnone. unfold dict_get_or. by rewrite Hnone.
  - intros Hfolder. destruct (dict_get_or result "quarantine_folder" _); try done.
    by destruct (Hfolder s).
  - intros folder e -> [Hmk | Hwr].
    + by rewrite Hmk.
    + destruct (os_makedirs folder) as [[] |]; simpl; [| done]. by rewrite Hwr.
Qed.


End MainProperties.


Lemma main_quarantine_witness :
  @handle_result sample_os "Subject: hi"
     (list_to_map [("action", VStr "quarantine"); ("quarantine_folder", VStr "/q/")])
  = MainEffect None (Some ("/q/email_1700000000.eml", "Subject: hi")) 1.
Proof.
  destruct (@main_quarantine sample_os "Subject: hi"
              (list_to_map [("action", VStr "quarantine");
                            ("quarantine_folder", VStr "/q/")])) as [Hok _].
  - reflexivity.
  - apply (Hok "/q/"); reflexivity.
Defined.



(** ** Filter nodes: logic mode and faults *)

Section FilterEdgeCases.
Context `{PyBuiltins}.

Implicit Types (cfg data : gmap string pyval).

Lemma FilterNode_execute_verdict cfg data results :
  (conds ← py_iter (FilterNode_conditions cfg); evaluate_all data conds) = Ok results →
  ∃ r, FilterNode_execute cfg data = Ok r ∧
       r !! "filter_passed"
       = Some (VBool (if py_eq_str (dict_get_or cfg "logic" (VStr "AND")) "AND"
                      then forallb fr_result results else existsb fr_result results)).
Proof.
  unfold FilterNode_execute.
  destruct (py_iter (FilterNode_conditions cfg)) as [conds |]; simpl; [| done].
  intros ->. simpl.
  destruct (py_eq_str _ _); eexists; (split; [reflexivity |]); apply lookup_insert_eq.
Qed.

(** X19: the logic mode of a Filter node. Without a [logic] entry the
    conditions are combined with [all]; so they are when the entry is the
    string [AND]; any other entry, [OR], a different spelling such as [and],
    or a value that is not a string, combines them with [any]. *)
Theorem FilterNode_logic_mode (cfg data : gmap string pyval) (results : list filter_result) :
  (conds ← py_iter (FilterNode_conditions cfg); evaluate_all data conds) = Ok results →
  ∃ r, FilterNode_execute cfg data = Ok r ∧
       (cfg !! "logic" = None →
          r !! "filter_passed" = Some (VBool (forallb fr_result results))) ∧
       (cfg !! "logic" = Some (VStr "AND") →
          r !! "filter_passed" = Some (VBool (forallb fr_result results))) ∧
       (∀ l, cfg !! "logic" = Some l → l ≠ VStr "AND" →
          r !! "filter_passed" = Some (VBool (existsb fr_result results))).
Proof.
  intros Hres. destruct (FilterNode_execute_verdict cfg data results Hres) as (r & Hr & Hv).
  exists r. split; [done |]. unfold dict_get_or in Hv.
  split; [| split].
  - intros Hl. by rewrite Hl in Hv.
  - intros Hl. by rewrite Hl in Hv.
  - intros l Hl Hne. rewrite Hl in Hv. simpl in Hv. by rewrite py_eq_str_false in Hv.
Qed.

Lemma evaluate_one_bad data c :
  condition_ok c = false → ∃ e, evaluate_one data c = Raise e.
Proof.
  unfold evaluate_one. destruct c as [| | | | | | d]; simpl; eauto.
  destruct (dict_get d "field"); simpl; try done; eauto.
Qed.

Lemma evaluate_all_bad data conds c :
  c ∈ conds → condition_ok c = false → ∃ e, evaluate_all data conds = Raise e.
Proof.
  intros Hin Hbad. induction conds as [| c' cs IH]; [by apply elem_of_nil in Hin |].
  simpl. destruct (evaluate_one data c') as [r |] eqn:Hone; simpl; [| eauto].
  apply elem_of_cons in Hin as [<- | Hin].
  - destruct (evaluate_one_bad data c Hbad) as [e He]. congruence.
  - destruct (IH Hin) as [e ->]. simpl. eauto.
Qed.

(** X20: faults of a Filter node, and what they do to the traversal. The
    node raises when [conditions] is [None], a boolean or a number, and when
    it is a list with an element that is no object or whose [field] is a
    list or an object. A node that raises ends the traversal where it
    stands: the run carries the exception, and the connections after the
    one that led to the node are not tried. *)
Theorem FilterNode_faults (cfg data : gmap string pyval) :
  (FilterNode_conditions cfg = VNone ∨
   (∃ b, FilterNode_conditions cfg = VBool b) ∨
   (∃ n, FilterNode_conditions cfg = VInt n) ∨
   (∃ x, FilterNode_conditions cfg = VFloat x) →
   ∃ e, FilterNode_execute cfg data = Raise e) ∧
  (∀ conds c, FilterNode_conditions cfg = VList conds →
              c ∈ conds → condition_ok c = false →
              ∃ e, FilterNode_execute cfg data = Raise e) ∧
  (∀ (fuel : nat) nodes node visited e,
     node_id node ∉ visited → config node = cfg → class_of node = FilterNode →
     FilterNode_execute cfg data = Raise e →
     _execute_node (S fuel) nodes node data visited
       = ([Executed (node_id node)], Raised e) ∧
     ∀ descend c cs,
       _should_follow_connection data (condition c) = true →
       nodes_lookup nodes (target c) = Some node →
       descend node data = _execute_node (S fuel) nodes node data visited →
       follow_connections nodes descend (c :: cs) data
         = ([Executed (node_id node)], Raised e)).
Proof.
  split; [| split].
  - unfold FilterNode_execute.
    intros [-> | [[b ->] | [[n ->] | [x ->]]]]; simpl; eauto.
  - intros conds c Hconds Hin Hbad. unfold FilterNode_execute. rewrite Hconds. simpl.
    destruct (evaluate_all_bad data conds c Hin Hbad) as [e ->]. simpl. eauto.
  - intros fuel nodes node visited e Hfresh Hcfg Hclass Hraise.
    assert (_execute_node (S fuel) nodes node data visited
            = ([Executed (node_id node)], Raised e)) as Hrun.
    { simpl. rewrite decide_False by done.
      unfold node_execute. rewrite Hclass, Hcfg, Hraise. done. }
    split; [done |].
    intros descend c cs Hfollow Hlook Hdesc. simpl.
    by rewrite Hfollow, Hlook, Hdesc, Hrun.
Qed.

End FilterEdgeCases.

Lemma FilterNode_logic_mode_witness :
  ∃ r, @FilterNode_execute sample_builtins
         (list_to_map [("logic", VStr "and");
                       ("conditions", VList [spam_subject_condition; spam_sender_condition])])
         spam_record = Ok r ∧
       r !! "filter_passed" = Some (VBool true).
Proof.
  destruct (@FilterNode_logic_mode sample_builtins
              (list_to_map [("logic", VStr "and");
                            ("conditions",
                             VList [spam_subject_condition; spam_sender_condition])])
              spam_record
              [FilterResult (VStr "subject") (VStr "contains") (VStr "[SPAM]") true;
               FilterResult (VStr "sender") (VStr "contains") (VStr "noreply@spam") false])
    as (r & Hr & _ & _ & Hany).
  - reflexivity.
  - exists r. split; [exact Hr |].
    apply (Hany (VStr "and")); [reflexivity | discriminate].
Defined.

Lemma FilterNode_faults_witness :
  ∃ e, @FilterNode_execute sample_builtins
         (list_to_map [("conditions", VList [VStr "subject contains spam"])])
         hello_record = Raise e.
Proof.
  destruct (@FilterNode_faults sample_builtins
              (list_to_map [("conditions", VList [VStr "subject contains spam"])])
              hello_record) as (_ & Hbad & _).
  apply (Hbad [VStr "subject contains spam"] (VStr "subject contains spam"));
    [reflexivity | apply list_elem_of_here | reflexivity].
Defined.
